(** * Sistema de ventas (Paraguay): quote totals, deposit ledger, expiry
    classification, 401 interceptor and customer-form validation.

  A shallow embedding of the React front end:
  - [Quotes]     frontend/src/pages/Quotes.tsx (quote builder, lines 1-842)
  - [Deposits]   the deposit page that follows in the same file (lines 842-1476)
  - [Customers]  unnamed/part_000 (customer registry)
  - [Products]   unnamed/part_001 (product catalogue)
  - [Api]        frontend/src/services/api.ts (axios client)

  A JavaScript [number] is an IEEE 754 binary64 value: it is modelled by
  Rocq's primitive [float], whose operations are the same binary64
  operations.  Identifiers and byte counts are integers ([Z]); instants
  are milliseconds since the epoch ([Z]), as [Date.getTime] returns them. *)

From Stdlib Require Import ZArith QArith Lqa Floats.
From stdpp Require Import base option list strings gmap.

#[local] Set Warnings "-inexact-float".

(* ===================================================================== *)
(** ** JavaScript numbers *)
(* ===================================================================== *)

Module Js.

(** [ToBoolean] on a number: [0], [-0] and [NaN] are falsy. *)
Definition falsy (x : float) : bool :=
  PrimFloat.is_nan x || PrimFloat.is_zero x.

(** [x || d] on numbers. *)
Definition or_else (x d : float) : float :=
  if falsy x then d else x.

(** Two numbers that are the same value, or are both a zero ([0] and [-0],
    which [===] does not tell apart). *)
Definition same_number (x y : float) : Prop :=
  x = y ∨ (PrimFloat.is_zero x = true ∧ PrimFloat.is_zero y = true).

(** [Array.prototype.reduce] with an initial value, on an array without
    holes: a left fold. *)
Definition reduce {A B : Type} (f : B → A → B) (init : B) (l : list A) : B :=
  fold_left f l init.

End Js.

Notation "x '|?' d" := (Js.or_else x d) (at level 34, left associativity).

(* ===================================================================== *)
(** ** Quote builder (Quotes.tsx) *)
(* ===================================================================== *)

Module Product.
(** [interface Product] *)
Record t : Type := mk {
  id : Z;
  name : string;
  description : option string;
  unit_price : float;
  category_name : option string;
  stock_quantity : float;
}.
End Product.

Module QuoteLine.
(** [interface QuoteLine] *)
Record t : Type := mk {
  product_id : Z;
  product_name : option string;
  quantity : float;
  unit_price : float;
  discount : float;
  subtotal : float;
}.

(** [keyof QuoteLine] paired with the value written under that key: the
    [(field, value)] arguments of [handleUpdateLine]. *)
Inductive update : Type :=
| Set_product_id (v : Z)
| Set_product_name (v : option string)
| Set_quantity (v : float)
| Set_unit_price (v : float)
| Set_discount (v : float)
| Set_subtotal (v : float).

(** [{ ...line, [field]: value }] *)
Definition spread (l : t) (u : update) : t :=
  match u with
  | Set_product_id v => mk v (product_name l) (quantity l) (unit_price l) (discount l) (subtotal l)
  | Set_product_name v => mk (product_id l) v (quantity l) (unit_price l) (discount l) (subtotal l)
  | Set_quantity v => mk (product_id l) (product_name l) v (unit_price l) (discount l) (subtotal l)
  | Set_unit_price v => mk (product_id l) (product_name l) (quantity l) v (discount l) (subtotal l)
  | Set_discount v => mk (product_id l) (product_name l) (quantity l) (unit_price l) v (subtotal l)
  | Set_subtotal v => mk (product_id l) (product_name l) (quantity l) (unit_price l) (discount l) v
  end.

(** [field === 'quantity' || field === 'unit_price' || field === 'discount'] *)
Definition recalculates (u : update) : bool :=
  match u with
  | Set_quantity _ | Set_unit_price _ | Set_discount _ => true
  | _ => false
  end.

Definition with_subtotal (l : t) (v : float) : t :=
  mk (product_id l) (product_name l) (quantity l) (unit_price l) (discount l) v.
End QuoteLine.

Module Quotes.

(** The form fields of the quote dialog ([formData]). *)
Record FormData : Type := mkFormData {
  customer_id : Z;
  quote_date : string;
  valid_until : string;
  notes : string;
  terms_conditions : string;
}.

(** The component state the line handlers read and write. *)
Record State : Type := mkState {
  products : list Product.t;
  formData : FormData;
  editingQuote : option Z;
  quoteLines : list QuoteLine.t;
  selectedProduct : option Product.t;
  productQuantity : float;
  productDiscount : float;
}.

Definition with_lines (s : State) (ls : list QuoteLine.t) : State :=
  mkState (products s) (formData s) (editingQuote s) ls
          (selectedProduct s) (productQuantity s) (productDiscount s).

(** The three setters that end [handleAddProduct]:
    [setSelectedProduct(null); setProductQuantity(1); setProductDiscount(0)]. *)
Definition reset_picker (s : State) : State :=
  mkState (products s) (formData s) (editingQuote s) (quoteLines s) None 1%float 0%float.

(** [q * p * (1 - d / 100)], the expression both handlers evaluate once the
    [|| 0] guards have been applied to its operands. *)
Definition line_amount (q p d : float) : float :=
  (q * p * (1 - d / 100))%float.

(** "Actualizar línea existente", lines 183-188: the found line after
    [quantity += productQuantity], [discount = productDiscount] and the
    assignment to [subtotal]. *)
Definition merged_line (line : QuoteLine.t) (pq pd : float) : QuoteLine.t :=
  let q := (QuoteLine.quantity line + pq)%float in
  QuoteLine.mk (QuoteLine.product_id line) (QuoteLine.product_name line)
    q (QuoteLine.unit_price line) pd
    (line_amount (q |? 0) (QuoteLine.unit_price line |? 0) (pd |? 0)).

(** "Agregar nueva línea", lines 192-199. *)
Definition new_line (sp : Product.t) (pq pd : float) : QuoteLine.t :=
  QuoteLine.mk (Product.id sp) (Some (Product.name sp))
    (pq |? 1) (Product.unit_price sp |? 0) (pd |? 0)
    (line_amount (pq |? 1) (Product.unit_price sp |? 0) (pd |? 0)).

(** [handleAddProduct], lines 176-206.  [findIndex] returns the first
    line with the selected product's id.  The source rewrites that line
    object in place (the array is copied, its elements are not); the objects
    so shared are quote lines only, which hold copies of a product's id, name
    and price and no reference to the product. *)
Definition handleAddProduct (s : State) : State :=
  match selectedProduct s with
  | None => s
  | Some sp =>
    let lines' :=
      match list_find (λ line, QuoteLine.product_id line = Product.id sp) (quoteLines s) with
      | Some (existingLineIndex, line) =>
        <[existingLineIndex := merged_line line (productQuantity s) (productDiscount s)]>
          (quoteLines s)
      | None =>
        quoteLines s ++ [new_line sp (productQuantity s) (productDiscount s)]
      end in
    reset_picker (with_lines s lines')
  end.

(** [handleRemoveProduct], lines 208-210. *)
Definition handleRemoveProduct (productId : Z) (s : State) : State :=
  with_lines s (filter (λ line, QuoteLine.product_id line ≠ productId) (quoteLines s)).

(** The "Recalcular subtotal" expression of [handleUpdateLine], read off
    a line's own fields:
    [(quantity || 0) * (unit_price || 0) * (1 - (discount || 0) / 100)]. *)
Definition recalculated (l : QuoteLine.t) : float :=
  line_amount (QuoteLine.quantity l |? 0) (QuoteLine.unit_price l |? 0)
              (QuoteLine.discount l |? 0).

(** The body of [handleUpdateLine] on the line it rewrites. *)
Definition updated_line (l : QuoteLine.t) (u : QuoteLine.update) : QuoteLine.t :=
  let l' := QuoteLine.spread l u in
  if QuoteLine.recalculates u then QuoteLine.with_subtotal l' (recalculated l')
  else l'.

(** [handleUpdateLine], lines 212-225.  The only callers are the inputs of
    a rendered row, which pass the index of an existing line.  For any
    other index JavaScript would grow the array with an object that has a
    single field; a [QuoteLine.t] cannot express that, so the model is
    partial there. *)
Definition handleUpdateLine (index : nat) (u : QuoteLine.update) (s : State) : option State :=
  match quoteLines s !! index with
  | Some l => Some (with_lines s (<[index := updated_line l u]> (quoteLines s)))
  | None => None
  end.

(** The value [calculateTotals] returns. *)
Record Totals : Type := mkTotals {
  subtotal : float;
  taxAmount : float;
  total : float;
}.

(** [calculateTotals], lines 227-233. *)
Definition calculateTotals (s : State) : Totals :=
  let subtotal := Js.reduce (λ sum line, (sum + (QuoteLine.subtotal line |? 0))%float)
                            0%float (quoteLines s) in
  let taxAmount := (subtotal * 0.1)%float in
  let total := (subtotal + taxAmount)%float in
  mkTotals subtotal taxAmount total.

(** One element of [quoteData.lines]. *)
Record LineData : Type := mkLineData {
  ld_product_id : Z;
  ld_quantity : float;
  ld_unit_price : float;
  ld_discount : float;
}.

(** [quoteData], the body of the save request. *)
Record QuoteData : Type := mkQuoteData {
  qd_form : FormData;
  qd_lines : list LineData;
  qd_subtotal : float;
  qd_tax_amount : float;
  qd_total_amount : float;
}.

Inductive Request : Type :=
| UpdateQuote (id : Z) (data : QuoteData)
| CreateQuote (data : QuoteData).

Definition request_data (r : Request) : QuoteData :=
  match r with UpdateQuote _ d | CreateQuote d => d end.

(** [handleSubmit], lines 235-255: the request it sends.  What follows the
    request (reload, close, error banner) depends on the reply and does
    not change what was sent. *)
Definition handleSubmit (s : State) : Request :=
  let totals := calculateTotals s in
  let quoteData :=
    mkQuoteData (formData s)
      (map (λ line, mkLineData (QuoteLine.product_id line) (QuoteLine.quantity line)
                               (QuoteLine.unit_price line) (QuoteLine.discount line))
           (quoteLines s))
      (subtotal totals) (taxAmount totals) (total totals) in
  match editingQuote s with
  | Some id => UpdateQuote id quoteData
  | None => CreateQuote quoteData
  end.

(** The [disabled] expression of the "Agregar Producto" button, line 677:
    [!selectedProduct || productQuantity <= 0]. *)
Definition addDisabled (s : State) : bool :=
  match selectedProduct s with
  | None => true
  | Some _ => (productQuantity s <=? 0)%float
  end.

(** What the user can do in the "add product" panel and the line table. *)
Inductive Event : Type :=
| SelectProduct (p : option Product.t)      (* Autocomplete onChange *)
| EnterQuantity (q : float)                 (* setProductQuantity(Number(..)) *)
| EnterDiscount (d : float)                 (* setProductDiscount(Number(..)) *)
| AddProduct                                (* a click on "Agregar Producto" *)
| RemoveProduct (productId : Z).            (* handleRemoveProduct *)

Definition step (s : State) (e : Event) : State :=
  match e with
  | SelectProduct p =>
    mkState (products s) (formData s) (editingQuote s) (quoteLines s) p
            (productQuantity s) (productDiscount s)
  | EnterQuantity q =>
    mkState (products s) (formData s) (editingQuote s) (quoteLines s)
            (selectedProduct s) q (productDiscount s)
  | EnterDiscount d =>
    mkState (products s) (formData s) (editingQuote s) (quoteLines s)
            (selectedProduct s) (productQuantity s) d
  | AddProduct => if addDisabled s then s else handleAddProduct s
  | RemoveProduct productId => handleRemoveProduct productId s
  end.

Definition run (s : State) (es : list Event) : State := fold_left step es s.

(** The product ids of the lines, in order. *)
Definition line_ids (s : State) : list Z := QuoteLine.product_id <$> quoteLines s.

(** A line whose [subtotal] is what the recalculation gives on its
    fields. *)
Definition consistent (l : QuoteLine.t) : Prop :=
  QuoteLine.subtotal l = recalculated l.

(** A line none of whose quantity, unit_price and discount is [NaN]. *)
Definition numeric (l : QuoteLine.t) : Prop :=
  PrimFloat.is_nan (QuoteLine.quantity l) = false
  ∧ PrimFloat.is_nan (QuoteLine.unit_price l) = false
  ∧ PrimFloat.is_nan (QuoteLine.discount l) = false.

(** The dialog as [handleOpenDialog()] leaves it for a new quote. *)
Definition newQuote (ps : list Product.t) (fd : FormData) : State :=
  mkState ps fd None [] None 1%float 0%float.

End Quotes.

(* ===================================================================== *)
(** ** Deposit ledger *)
(* ===================================================================== *)

Module Deposits.

Inductive Status : Type := ACTIVE | APPLIED | REFUNDED | EXPIRED.

(** The ledger fields of [interface Deposit]; amounts are the decimals the
    backend stores. *)
Record Deposit : Type := mkDeposit {
  id : Z;
  amount : Q;
  available_amount : Q;
  status : Status;
}.

Record Invoice : Type := mkInvoice {
  invoice_id : Z;
  total_amount : Q;
  paid_amount : Q;
}.

(** Modelled from the spec: deposit creation on the backend, which is not
    under src/ ("created ACTIVE with available_amount = amount"). *)
Definition create (i : Z) (a : Q) : Deposit := mkDeposit i a a ACTIVE.

(** Modelled from the spec: the ledger effect shared by the two backend
    actions, which are not under src/ ("available_amount -= amount", the
    status moving to APPLIED or REFUNDED "when available_amount reaches
    0"). *)
Definition debit (d : Deposit) (amt : Q) (done : Status) : Deposit :=
  let rest := (available_amount d - amt)%Q in
  mkDeposit (id d) (amount d) rest (if Qeq_bool rest 0 then done else status d).

(** Modelled from the spec: the backend handler of
    [POST /deposits/{id}/apply-to-invoice], which is not under src/
    (section 4.2: precondition [amount ≤ deposit.available_amount]; effect
    [invoice.paid_amount += amount; deposit.available_amount -= amount]). *)
Definition applyToInvoice (d : Deposit) (inv : Invoice) (amt : Q)
  : option (Deposit * Invoice) :=
  if Qle_bool amt (available_amount d) then
    Some (debit d amt APPLIED,
          mkInvoice (invoice_id inv) (total_amount inv) (paid_amount inv + amt)%Q)
  else None.

(** Modelled from the spec: the backend handler of
    [POST /deposits/{id}/refund], which is not under src/ (section 4.3:
    reason required and non-empty; precondition [amount ≤
    available_amount]; effect [available_amount -= amount]). *)
Definition refund (d : Deposit) (amt : Q) (reason : string) : option Deposit :=
  if negb (String.eqb reason "") && Qle_bool amt (available_amount d) then
    Some (debit d amt REFUNDED)
  else None.

(** The two requests the deposit page sends ([handleApplyDeposit],
    [handleRefundDeposit]); each forwards [actionData.amount] as typed. *)
Inductive Action : Type :=
| Apply (inv : Invoice) (amt : Q)
| Refund (amt : Q) (reason : string).



Definition exec (d : Deposit) (a : Action) : option Deposit :=
  match a with
  | Apply inv amt => fst <$> applyToInvoice d inv amt
  | Refund amt reason => refund d amt reason
  end.

(** A sequence of actions, each accepted by its precondition. *)
Fixpoint run (d : Deposit) (acts : list Action) : option Deposit :=
  match acts with
  | [] => Some d
  | a :: rest => d' ← exec d a; run d' rest
  end.


End Deposits.

(* ===================================================================== *)
(** ** Dates *)
(* ===================================================================== *)

Module JsDate.

(** [1000 * 60 * 60 * 24] *)
Definition msPerDay : Z := 1000 * 60 * 60 * 24.

(** An optional date string as the predicates see it: absent or empty
    (falsy), a string [new Date] cannot parse ([getTime()] is [NaN]), or a
    string that denotes the instant [t]. *)
Inductive field : Type :=
| Empty
| Unparseable
| Parses (t : Z).

(** A date-only string "YYYY-MM-DD", as an [<input type="date">] yields
    it: [new Date] reads it as 00:00 UTC of that day; [d] numbers the days
    from 1970-01-01. *)
Definition date_only (d : Z) : field := Parses (d * msPerDay).

(** [Math.ceil(a / b)] for integers [a] and [b > 0].  The source divides
    in binary64; for a difference of instants (below 2^53 in magnitude) and
    [b = msPerDay] the rounded quotient is within 2^-27 of the exact one,
    less than the distance [1 / msPerDay] that separates a quotient that is
    not an integer from the nearest integer, so its ceiling is the exact
    ceiling. *)
Definition ceil_div (a b : Z) : Z := (- ((- a) / b))%Z.

Section LocalTime.
(** Offset of local time from UTC in milliseconds (-3 h in Paraguay). *)
Variable tz : Z.

(** [d.setHours(0, 0, 0, 0)]: the start of [t]'s day in local time.  The
    offset is taken as constant: no daylight-saving change falls between
    the instants compared. *)
Definition setHours0 (t : Z) : Z := (t - (t + tz) `mod` msPerDay)%Z.

(** The calendar day, in local time, an instant falls on. *)
Definition localDay (t : Z) : Z := ((t + tz) `div` msPerDay)%Z.
End LocalTime.

End JsDate.

(* ===================================================================== *)
(** ** Product catalogue (unnamed/part_001) *)
(* ===================================================================== *)

Module Products.
Import JsDate.

(** [isExpiringSoon], lines 166-172; [now] is [new Date()]. *)
Definition isExpiringSoon (now : Z) (expiryDate : field) : bool :=
  match expiryDate with
  | Empty => false
  | Unparseable => false          (* comparisons with NaN are false *)
  | Parses expiry =>
    let daysUntilExpiry := ceil_div (expiry - now) msPerDay in
    (daysUntilExpiry <=? 30)%Z && (daysUntilExpiry >=? 0)%Z
  end.

(** [isExpired], lines 174-179. *)
Definition isExpired (now : Z) (expiryDate : field) : bool :=
  match expiryDate with
  | Empty => false
  | Unparseable => false
  | Parses expiry => (expiry <? now)%Z
  end.

End Products.

(* ===================================================================== *)
(** ** Customer registry (unnamed/part_000) *)
(* ===================================================================== *)

Module Customers.
Import JsDate.

(** [interface Customer] *)
Record Customer : Type := mkCustomer {
  id : Z;
  company_name : string;
  contact_name : option string;
  email : option string;
  phone : option string;
  address : option string;
  city : option string;
  country : string;
  tax_id : option string;
  credit_limit : float;
  payment_terms : float;
  is_active : bool;
  tourism_regime : bool;
  tourism_regime_pdf : option string;
  tourism_regime_expiry : field;
  notes : option string;
}.

(** The fields of a browser [File] the page reads. *)
Record File : Type := mkFile {
  file_name : string;
  type : string;
  size : Z;
}.

(** [formData] *)
Record FormData : Type := mkFormData {
  fd_company_name : string;
  fd_contact_name : string;
  fd_email : string;
  fd_phone : string;
  fd_address : string;
  fd_city : string;
  fd_country : string;
  fd_tax_id : string;
  fd_credit_limit : float;
  fd_payment_terms : float;
  fd_is_active : bool;
  fd_tourism_regime : bool;
  fd_tourism_regime_expiry : field;
  fd_notes : string;
}.

Record State : Type := mkState {
  customers : list Customer;
  loading : bool;
  error : string;
  dialogOpen : bool;
  editingCustomer : option Customer;
  selectedFile : option File;
  fileError : string;
  submitting : bool;
  emailError : string;
  rucError : string;
  formData : FormData;
}.

Definition setCustomers (v : list Customer) (s : State) : State :=
  mkState v (loading s) (error s) (dialogOpen s) (editingCustomer s) (selectedFile s)
          (fileError s) (submitting s) (emailError s) (rucError s) (formData s).
Definition setLoading (v : bool) (s : State) : State :=
  mkState (customers s) v (error s) (dialogOpen s) (editingCustomer s) (selectedFile s)
          (fileError s) (submitting s) (emailError s) (rucError s) (formData s).
Definition setError (v : string) (s : State) : State :=
  mkState (customers s) (loading s) v (dialogOpen s) (editingCustomer s) (selectedFile s)
          (fileError s) (submitting s) (emailError s) (rucError s) (formData s).
Definition setDialogOpen (v : bool) (s : State) : State :=
  mkState (customers s) (loading s) (error s) v (editingCustomer s) (selectedFile s)
          (fileError s) (submitting s) (emailError s) (rucError s) (formData s).
Definition setEditingCustomer (v : option Customer) (s : State) : State :=
  mkState (customers s) (loading s) (error s) (dialogOpen s) v (selectedFile s)
          (fileError s) (submitting s) (emailError s) (rucError s) (formData s).
Definition setSelectedFile (v : option File) (s : State) : State :=
  mkState (customers s) (loading s) (error s) (dialogOpen s) (editingCustomer s) v
          (fileError s) (submitting s) (emailError s) (rucError s) (formData s).
Definition setFileError (v : string) (s : State) : State :=
  mkState (customers s) (loading s) (error s) (dialogOpen s) (editingCustomer s) (selectedFile s)
          v (submitting s) (emailError s) (rucError s) (formData s).
Definition setSubmitting (v : bool) (s : State) : State :=
  mkState (customers s) (loading s) (error s) (dialogOpen s) (editingCustomer s) (selectedFile s)
          (fileError s) v (emailError s) (rucError s) (formData s).
Definition setEmailError (v : string) (s : State) : State :=
  mkState (customers s) (loading s) (error s) (dialogOpen s) (editingCustomer s) (selectedFile s)
          (fileError s) (submitting s) v (rucError s) (formData s).
Definition setRucError (v : string) (s : State) : State :=
  mkState (customers s) (loading s) (error s) (dialogOpen s) (editingCustomer s) (selectedFile s)
          (fileError s) (submitting s) (emailError s) v (formData s).
Definition setFormData (v : FormData) (s : State) : State :=
  mkState (customers s) (loading s) (error s) (dialogOpen s) (editingCustomer s) (selectedFile s)
          (fileError s) (submitting s) (emailError s) (rucError s) v.

(** The state the component mounts with ([useState] initial values). *)
Definition emptyForm : FormData :=
  mkFormData "" "" "" "" "" "" "Paraguay" "" 0%float 30%float true false Empty "".

Definition initial : State :=
  mkState [] true "" false None None "" false "" "" emptyForm.

(** [handleOpenDialog], lines 119-162. *)
Definition handleOpenDialog (customer : option Customer) (s : State) : State :=
  match customer with
  | Some c =>
    setDialogOpen true
      (setFormData
         (mkFormData (company_name c) (default "" (contact_name c)) (default "" (email c))
            (default "" (phone c)) (default "" (address c)) (default "" (city c))
            (country c) (default "" (tax_id c)) (credit_limit c) (payment_terms c)
            (is_active c) (tourism_regime c) (tourism_regime_expiry c)
            (default "" (notes c)))
         (setEditingCustomer (Some c) s))
  | None =>
    setDialogOpen true
      (setRucError "" (setEmailError "" (setFileError "" (setSelectedFile None
        (setFormData emptyForm (setEditingCustomer None s))))))
  end.

(** [handleCloseDialog], lines 164-172. *)
Definition handleCloseDialog (s : State) : State :=
  setSubmitting false (setRucError "" (setEmailError "" (setFileError ""
    (setSelectedFile None (setEditingCustomer None (setDialogOpen false s)))))).

(** [10 * 1024 * 1024] *)
Definition maxFileSize : Z := 10 * 1024 * 1024.

(** [handleFileSelect], lines 206-224; the argument is
    [event.target.files?.[0]]. *)
Definition handleFileSelect (file : option File) (s : State) : State :=
  match file with
  | None => s
  | Some f =>
    if negb (String.eqb (type f) "application/pdf") then
      setFileError "Solo se permiten archivos PDF" s
    else if (size f >? maxFileSize)%Z then
      setFileError "El archivo es demasiado grande. Máximo permitido: 10MB" s
    else
      setFileError "" (setSelectedFile (Some f) s)
  end.

(** The requests the page sends through [apiService]. *)
Inductive Request : Type :=
| GetCustomers
| CreateCustomer (data : FormData)
| UpdateCustomer (id : Z) (data : FormData)
| UploadTourismPdf (customerId : Z) (file : File).

(** How the backend answers the requests of one [handleSubmit]: the save
    call throws or resolves to [response.data]; the upload succeeds or
    throws; the list reload resolves to the new list or throws. *)
Record Replies : Type := mkReplies {
  saved : option (option Customer);
  uploaded : bool;
  reloaded : option (list Customer);
}.

(** [loadCustomers], lines 106-117. *)
Definition loadCustomers (r : Replies) (s : State) : State * list Request :=
  let s := setLoading true s in
  let s := match reloaded r with
           | Some data => setCustomers data s
           | None => setError "Error al cargar clientes" s
           end in
  (setLoading false s, [GetCustomers]).

(** The tourism-regime checks of [handleSubmit], lines 232-247: the
    message of the check that fails, if one does.  [today] is the
    browser's clock put back to local midnight; the expiry is compared as
    parsed. *)
Definition validation_error (tz now : Z) (fd : FormData) : option string :=
  if fd_tourism_regime fd then
    match fd_tourism_regime_expiry fd with
    | Empty => Some "Debe proporcionar la fecha de vencimiento del régimen de turismo"
    | Unparseable => None         (* [NaN <= today] is false *)
    | Parses expiryDate =>
      let today := setHours0 tz now in
      if (expiryDate <=? today)%Z
      then Some "La fecha de vencimiento del régimen de turismo debe ser futura"
      else None
    end
  else None.

(** The save request of [handleSubmit], lines 251-255. *)
Definition save_request (s0 : State) : Request :=
  match editingCustomer s0 with
  | Some c => UpdateCustomer (id c) (formData s0)
  | None => CreateCustomer (formData s0)
  end.

(** The upload that follows a successful save, lines 257-266; [s0] is the
    state the handler was created with, [customer] the saved record. *)
Definition upload (r : Replies) (s0 : State) (customer : option Customer) (s : State)
  : State * list Request :=
  match selectedFile s0, fd_tourism_regime (formData s0), customer with
  | Some f, true, Some c =>
    let customerId := match editingCustomer s0 with
                      | Some e => id e
                      | None => id c
                      end in
    (if uploaded r then s
     else setError "Cliente guardado, pero error al subir archivo. Puede subirlo después editando el cliente." s,
     [UploadTourismPdf customerId f])
  | _, _, _ => (s, [])
  end.

(** [handleSubmit], lines 226-276.  [tz] and [now] are the browser's time
    zone and clock; the result pairs the state after the handler has
    settled with the requests it sent, in order.  Every exit passes through
    the [finally] block, written [setSubmitting false]. *)
Definition handleSubmit (tz now : Z) (r : Replies) (s0 : State) : State * list Request :=
  let s := setError "" (setSubmitting true s0) in
  match validation_error tz now (formData s0) with
  | Some msg => (setSubmitting false (setError msg s), [])
  | None =>
    match saved r with
    | None =>
      (setSubmitting false (setError "Error al guardar cliente" s), [save_request s0])
    | Some customer =>
      let su := upload r s0 customer s in
      let sl := loadCustomers r su.1 in
      (setSubmitting false (handleCloseDialog sl.1), save_request s0 :: su.2 ++ sl.2)
    end
  end.

(** [isRegimeExpiringSoon], lines 336-352. *)
Definition isRegimeExpiringSoon (tz now : Z) (expiryDate : field) : bool :=
  match expiryDate with
  | Empty => false
  | Unparseable => false
  | Parses t =>
    let today := setHours0 tz now in
    let expiry := setHours0 tz t in
    let daysUntilExpiry := ceil_div (expiry - today) msPerDay in
    (daysUntilExpiry <=? 5)%Z && (daysUntilExpiry >=? 0)%Z
  end.

(** [isRegimeExpired], lines 354-369. *)
Definition isRegimeExpired (tz now : Z) (expiryDate : field) : bool :=
  match expiryDate with
  | Empty => false
  | Unparseable => false
  | Parses t =>
    let today := setHours0 tz now in
    let expiry := setHours0 tz t in
    (expiry <? today)%Z
  end.

(** The [disabled] expression of the dialog's submit button, lines
    1010-1015. *)
Definition submitDisabled (s : State) : bool :=
  submitting s
  || String.eqb (fd_company_name (formData s)) ""
  || (fd_tourism_regime (formData s)
      && match fd_tourism_regime_expiry (formData s) with Empty => true | _ => false end)
  || (fd_tourism_regime (formData s)
      && match selectedFile s with Some _ => true | None => false end
      && negb (String.eqb (fileError s) "")).

(** The tourism-regime switch's [onChange], lines 798-809. *)
Definition handleToggleRegime (isChecked : bool) (s : State) : State :=
  let fd := formData s in
  let s :=
    setFormData
      (mkFormData (fd_company_name fd) (fd_contact_name fd) (fd_email fd) (fd_phone fd)
         (fd_address fd) (fd_city fd) (fd_country fd) (fd_tax_id fd) (fd_credit_limit fd)
         (fd_payment_terms fd) (fd_is_active fd) isChecked
         (if isChecked then fd_tourism_regime_expiry fd else Empty) (fd_notes fd))
      s in
  if isChecked then s else setFileError "" (setSelectedFile None s).

(** What can happen to the customer dialog. *)
Inductive Event : Type :=
| OpenDialog (customer : option Customer)
| CloseDialog
| EditForm (fd : FormData)                     (* a field's setFormData *)
| ToggleRegime (isChecked : bool)
| FileSelect (file : option File)
| Submit (tz now : Z) (r : Replies).             (* a click on the submit button *)

Definition step (st : State * list Request) (e : Event) : State * list Request :=
  let '(s, sent) := st in
  match e with
  | OpenDialog c => (handleOpenDialog c s, sent)
  | CloseDialog => (handleCloseDialog s, sent)
  | EditForm fd => (setFormData fd s, sent)
  | ToggleRegime isChecked => (handleToggleRegime isChecked s, sent)
  | FileSelect f => (handleFileSelect f s, sent)
  | Submit tz now r =>
    if submitDisabled s then (s, sent)
    else let '(s', reqs) := handleSubmit tz now r s in (s', sent ++ reqs)
  end.

(** The state after a sequence of events, with every request sent so far. *)
Definition run (es : list Event) : State * list Request :=
  fold_left step es (initial, []).

(** The two checks of [handleFileSelect], as the specification words
    them. *)
Definition acceptable (f : File) : bool :=
  String.eqb (type f) "application/pdf" && (size f <=? maxFileSize)%Z.

(** The invariant of [run]: the selected file, and every file uploaded
    so far, passed the picker's checks. *)
Definition checked (st : State * list Request) : Prop :=
  (∀ f, selectedFile st.1 = Some f → acceptable f = true)
  ∧ (∀ customerId f, UploadTourismPdf customerId f ∈ st.2 → acceptable f = true).

End Customers.

(* ===================================================================== *)
(** ** HTTP client (services/api.ts) *)
(* ===================================================================== *)

Module Api.

Record Response : Type := mkResponse {
  status : Z;
  data : string;
}.

(** An axios error; [response] is absent when the request never got a
    reply. *)
Record AxiosError : Type := mkError {
  message : string;
  response : option Response;
}.

(** What the interceptor can touch: the client's private [token] field,
    [localStorage] and [window.location.href]. *)
Record Browser : Type := mkBrowser {
  token : option string;
  localStorage : gmap string string;
  href : string;
}.

Inductive Promise : Type :=
| Resolved (r : Response)
| Rejected (e : AxiosError).

(** [setToken] *)
Definition setToken (t : option string) (b : Browser) : Browser :=
  mkBrowser t (localStorage b) (href b).

(** [error.response?.status === 401] *)
Definition unauthorized (e : AxiosError) : bool :=
  match response e with
  | Some r => (status r =? 401)%Z
  | None => false
  end.

(** The response interceptor's success handler, line 29. *)
Definition onFulfilled (r : Response) (b : Browser) : Browser * Promise :=
  (b, Resolved r).

(** The response interceptor's error handler, lines 30-38. *)
Definition onRejected (e : AxiosError) (b : Browser) : Browser * Promise :=
  let b' :=
    if unauthorized e then
      let b := setToken None b in
      let b := mkBrowser (token b) (delete "token" (localStorage b)) (href b) in
      mkBrowser (token b) (localStorage b) "/login"
    else b in
  (b', Rejected e).

End Api.

(* ===================================================================== *)
(** ** The specification's own notions *)
(* ===================================================================== *)

Module Claimed.

(** The sum of a list of numbers, added left to right from 0. *)
Definition sum (xs : list float) : float := fold_left PrimFloat.add xs 0%float.

(** "the sum of the lines' subtotal fields" *)
Definition sum_of_subtotals (ls : list QuoteLine.t) : float :=
  sum (QuoteLine.subtotal <$> ls).

(** [quantity * unit_price * (1 - discount / 100)] on the line's fields. *)
Definition line_formula (l : QuoteLine.t) : float :=
  Quotes.line_amount (QuoteLine.quantity l) (QuoteLine.unit_price l) (QuoteLine.discount l).

(** [Math.round] on a finite number: the nearest integer, halves going
    up. *)
Definition round_half_up (x : float) : option Z :=
  match Prim2SF x with
  | S754_zero _ => Some 0%Z
  | S754_finite s m e =>
    let v := if s then Z.neg m else Z.pos m in
    Some (if (0 <=? e)%Z then v * 2 ^ e
          else (2 * v + 2 ^ (- e)) `div` 2 ^ (1 - e))%Z
  | _ => None
  end.

(** The binary64 value nearest to an integer. *)
Definition of_Z (n : Z) : float := SF2Prim (binary_normalize prec emax n 0 false).

(** "rounded to 2 decimal places": [Math.round(x * 100) / 100]. *)
Definition round2 (x : float) : float :=
  match round_half_up (x * 100)%float with
  | Some n => (of_Z n / 100)%float
  | None => x
  end.

(** "the number of days from today until expiry", in calendar days of
    the local time zone. *)
Definition days_until (tz now expiry : Z) : Z :=
  (JsDate.localDay tz expiry - JsDate.localDay tz now)%Z.


(** C6 as worded: three days ahead is "expiring soon" for a customer and
    not for a product. *)
Definition three_days_ahead (tz now expiry : Z) : Prop :=
  days_until tz now expiry = 3%Z →
  Customers.isRegimeExpiringSoon tz now (JsDate.Parses expiry) = true
  ∧ Customers.isRegimeExpired tz now (JsDate.Parses expiry) = false
  ∧ Products.isExpiringSoon now (JsDate.Parses expiry) = false.

End Claimed.

(* ===================================================================== *)
(** ** Concrete inputs used by the examples below *)
(* ===================================================================== *)

Module Sample.

Definition form : Quotes.FormData :=
  Quotes.mkFormData 12 "2025-03-10" "2025-04-09" "" "Precios validos por 30 dias.".

Definition cable : Product.t :=
  Product.mk 3 "Cable 2mm" None 100000%float (Some "Electricidad") 25%float.

Definition yerba : Product.t :=
  Product.mk 7 "Yerba mate 1kg" None 99%float None 40%float.

(** A product whose price times ten overflows binary64. *)
Definition turbina : Product.t :=
  Product.mk 9 "Turbina" None 1e308%float None 1%float.

Definition catalog : list Product.t := [cable; yerba; turbina].

(** Pick a product, type a quantity and a discount, press "Agregar". *)
Definition add (p : Product.t) (q d : float) : list Quotes.Event :=
  [Quotes.SelectProduct (Some p); Quotes.EnterQuantity q; Quotes.EnterDiscount d;
   Quotes.AddProduct].

(** The specification's example: 3 units at 100000 with 10 % off. *)
Definition quote_cable : Quotes.State :=
  Quotes.run (Quotes.newQuote catalog form) (add cable 3 10).

(** One unit at 99 with 6.25 % off. *)
Definition quote_yerba : Quotes.State :=
  Quotes.run (Quotes.newQuote catalog form) (add yerba 1 6.25).

(** Ten units at 1e308 with 100 % off: [10 * 1e308] is [Infinity] and
    [Infinity * 0] is [NaN]. *)
Definition quote_turbina : Quotes.State :=
  Quotes.run (Quotes.newQuote catalog form) (add turbina 10 100).

(** [quote_yerba] with the picker filled in for a second add of yerba. *)
Definition quote_yerba_again : Quotes.State :=
  Quotes.run quote_yerba
    [Quotes.SelectProduct (Some yerba); Quotes.EnterQuantity 2; Quotes.EnterDiscount 10].

(** [quote_yerba] after typing 5 into the quantity cell of its row. *)
Definition quote_yerba_edited : Quotes.State :=
  default quote_yerba (Quotes.handleUpdateLine 0 (QuoteLine.Set_quantity 5) quote_yerba).

(** The specification's deposit example: 500000 received, 200000 applied
    to an invoice, the remaining 300000 refunded. *)
Definition deposit : Deposits.Deposit := Deposits.create 1 500000.

Definition invoice : Deposits.Invoice := Deposits.mkInvoice 44 800000 0.

Definition settle : list Deposits.Action :=
  [Deposits.Apply invoice 200000; Deposits.Refund 300000 "Obra cancelada"].



(** Paraguay: local time is UTC - 3 h. *)
Definition tz : Z := - (3 * 60 * 60 * 1000).

(** 2025-03-10 00:00 local time (03:00 UTC). *)
Definition midnight : Z := 1741575600000.

(** 2025-03-10 12:00 local time, taken as the current instant. *)
Definition noon : Z := midnight + 12 * 60 * 60 * 1000.


(** 2025-03-09 23:00 local time: the evening before. *)
Definition last_night : Z := midnight - 60 * 60 * 1000.

(** 2025-03-13 00:00 local time: three days after today. *)
Definition in_three_days : Z := midnight + 3 * JsDate.msPerDay.

(** A customer under the tourism regime whose exemption ends today. *)
Definition hotel_form : Customers.FormData :=
  Customers.mkFormData "Hotel Guarani SA" "Ana Benitez" "" "" "" "Asuncion" "Paraguay"
    "80012345-6" 0%float 30%float true true (JsDate.Parses midnight) "".

(** The same form with the exemption ending in three days. *)
Definition hotel_form_ok : Customers.FormData :=
  Customers.mkFormData "Hotel Guarani SA" "Ana Benitez" "" "" "" "Asuncion" "Paraguay"
    "80012345-6" 0%float 30%float true true (JsDate.Parses in_three_days) "".

Definition hotel : Customers.Customer :=
  Customers.mkCustomer 5 "Hotel Guarani SA" (Some "Ana Benitez") None None None
    (Some "Asuncion") "Paraguay" (Some "80012345-6") 0%float 30%float true true None
    (JsDate.Parses in_three_days) None.

Definition certificate : Customers.File :=
  Customers.mkFile "regimen.pdf" "application/pdf" 204800.

Definition photo : Customers.File :=
  Customers.mkFile "fachada.png" "image/png" 1024.

(** The backend accepts everything. *)
Definition replies : Customers.Replies :=
  Customers.mkReplies (Some (Some hotel)) true (Some [hotel]).

(** The "new customer" dialog filled in with [hotel_form]. *)
Definition hotel_dialog : Customers.State :=
  Customers.setFormData hotel_form (Customers.handleOpenDialog None Customers.initial).

(** A new customer is saved together with a certificate. *)
Definition register_hotel : list Customers.Event :=
  [Customers.OpenDialog None; Customers.EditForm hotel_form_ok;
   Customers.FileSelect (Some photo); Customers.FileSelect (Some certificate);
   Customers.Submit tz noon replies].

Definition unauthorized_error : Api.AxiosError :=
  Api.mkError "Request failed with status code 401" (Some (Api.mkResponse 401 "")).

Definition server_error : Api.AxiosError :=
  Api.mkError "Request failed with status code 500" (Some (Api.mkResponse 500 "")).

Definition logged_in : Api.Browser :=
  Api.mkBrowser (Some "eyJhbGciOi") {[ "token" := "eyJhbGciOi"; "theme" := "dark" ]}
                "/quotes".

End Sample.

(* ===================================================================== *)
(** ** Regular expressions *)
(* ===================================================================== *)

Module Regex.

(** The patterns the validators use, over UTF-16 code units: character
    classes, concatenation, alternation and repetition. *)
Inductive t : Type :=
| Void
| Eps
| Class (p : N → bool)
| Cat (r1 r2 : t)
| Alt (r1 r2 : t)
| Star (r : t).

(** [r+] *)
Definition Plus (r : t) : t := Cat r (Star r).

(** [r{n}] *)
Fixpoint Repeat (n : nat) (r : t) : t :=
  match n with
  | O => Eps
  | S n => Cat r (Repeat n r)
  end.

(** The strings a pattern denotes. *)
Inductive matches : t → list N → Prop :=
| m_eps : matches Eps []
| m_class p c : p c = true → matches (Class p) [c]
| m_cat r1 r2 s1 s2 : matches r1 s1 → matches r2 s2 → matches (Cat r1 r2) (s1 ++ s2)
| m_alt_l r1 r2 s : matches r1 s → matches (Alt r1 r2) s
| m_alt_r r1 r2 s : matches r2 s → matches (Alt r1 r2) s
| m_star_nil r : matches (Star r) []
| m_star_cons r s1 s2 : matches r s1 → matches (Star r) s2 → matches (Star r) (s1 ++ s2).

Fixpoint nullable (r : t) : bool :=
  match r with
  | Void => false
  | Eps => true
  | Class _ => false
  | Cat r1 r2 => nullable r1 && nullable r2
  | Alt r1 r2 => nullable r1 || nullable r2
  | Star _ => true
  end.

(** What is left of a pattern after reading [c]. *)
Fixpoint deriv (c : N) (r : t) : t :=
  match r with
  | Void => Void
  | Eps => Void
  | Class p => if p c then Eps else Void
  | Cat r1 r2 =>
    if nullable r1 then Alt (Cat (deriv c r1) r2) (deriv c r2)
    else Cat (deriv c r1) r2
  | Alt r1 r2 => Alt (deriv c r1) (deriv c r2)
  | Star r => Cat (deriv c r) (Star r)
  end.

(** [/^r$/.test(s)]: the pattern is anchored at both ends and has no flag,
    so the test is whether it denotes the whole string. *)
Fixpoint test (r : t) (s : list N) : bool :=
  match s with
  | [] => nullable r
  | c :: s => test (deriv c r) s
  end.

End Regex.

(* ===================================================================== *)
(** ** Field validators (unnamed/part_000, unnamed/part_002) *)
(* ===================================================================== *)

Module Validators.

(** A JavaScript string is the list of its UTF-16 code units; [length] is
    the list's length. *)
Definition jsstring : Type := list N.

(** An ASCII text as a JavaScript string. *)
Definition units (s : string) : jsstring :=
  Ascii.N_of_ascii <$> String.list_ascii_of_string s.

(** [\s]: the WhiteSpace and LineTerminator code points of ECMAScript. *)
Definition space (c : N) : bool :=
  ((9 <=? c) && (c <=? 13) || (c =? 32) || (c =? 160) || (c =? 5760)
   || (8192 <=? c) && (c <=? 8202) || (c =? 8232) || (c =? 8233)
   || (c =? 8239) || (c =? 8287) || (c =? 12288) || (c =? 65279))%N.

(** [\d] *)
Definition digit (c : N) : bool := ((48 <=? c) && (c <=? 57))%N.

Definition at_sign : N := 64.
Definition dot : N := 46.
Definition hyphen : N := 45.

(** [[^\s@]] *)
Definition plain (c : N) : bool := negb (space c || (c =? at_sign)%N).

(** [/^[^\s@]+@[^\s@]+\.[^\s@]+$/], part_000 line 180. *)
Definition emailRegex : Regex.t :=
  Regex.Cat (Regex.Plus (Regex.Class plain))
    (Regex.Cat (Regex.Class (N.eqb at_sign))
       (Regex.Cat (Regex.Plus (Regex.Class plain))
          (Regex.Cat (Regex.Class (N.eqb dot)) (Regex.Plus (Regex.Class plain))))).

(** [/^\d{8}-\d{1}$/], part_000 line 196. *)
Definition rucRegex : Regex.t :=
  Regex.Cat (Regex.Repeat 8 (Regex.Class digit))
    (Regex.Cat (Regex.Class (N.eqb hyphen)) (Regex.Repeat 1 (Regex.Class digit))).

(** [/^\d+$/], part_002 lines 188 and 199. *)
Definition digitsRegex : Regex.t := Regex.Plus (Regex.Class digit).

(** [validateEmail], part_000 lines 175-187: the state after its
    [setEmailError] and the value it returns. *)
Definition validateEmail (email : jsstring) (s : Customers.State) : Customers.State * bool :=
  match email with
  | [] => (Customers.setEmailError "" s, true)
  | _ =>
    if negb (Regex.test emailRegex email) then
      (Customers.setEmailError "Formato de email inválido" s, false)
    else (Customers.setEmailError "" s, true)
  end.

(** [validateRuc], part_000 lines 190-203. *)
Definition validateRuc (ruc : jsstring) (s : Customers.State) : Customers.State * bool :=
  match ruc with
  | [] => (Customers.setRucError "" s, true)
  | _ =>
    if negb (Regex.test rucRegex ruc) then
      (Customers.setRucError "Formato RUC inválido. Use: 12345678-1" s, false)
    else (Customers.setRucError "" s, true)
  end.

(** [x.replace(/[-\s]/g, '')] *)
Definition clean (x : jsstring) : jsstring :=
  filter (λ c, negb ((c =? hyphen)%N || space c) = true) x.

(** [validateRUC] of the company settings page, part_002 lines 183-192:
    the message it returns, empty when the RUC is accepted. *)
Definition validateRUC (ruc : jsstring) : string :=
  let rucClean := clean ruc in
  if (length rucClean <? 6)%nat || (10 <? length rucClean)%nat then
    "RUC debe tener entre 6 y 10 dígitos"
  else if negb (Regex.test digitsRegex rucClean) then
    "RUC debe contener solo números"
  else "".

(** [validateTimbrado], part_002 lines 194-203. *)
Definition validateTimbrado (timbrado : jsstring) : string :=
  let timbradoClean := clean timbrado in
  if (length timbradoClean <? 8)%nat then
    "Timbrado debe tener al menos 8 dígitos"
  else if negb (Regex.test digitsRegex timbradoClean) then
    "Timbrado debe contener solo números"
  else "".

End Validators.

(* ===================================================================== *)
(** ** Session (services/api.ts, context/AuthContext.tsx) *)
(* ===================================================================== *)

Module Auth.

(** [interface User] *)
Record User : Type := mkUser {
  id : Z;
  username : string;
  full_name : string;
  email : string;
  role : string;
  is_active : bool;
  can_create_customers : bool;
  can_create_quotes : bool;
  can_manage_deposits : bool;
  can_view_reports : bool;
}.

(** An axios request config: method, path and the [Authorization]
    header. *)
Record Config : Type := mkConfig {
  method : string;
  url : string;
  authorization : option string;
}.

(** The request interceptor, api.ts lines 20-25; [if (this.token)] is false
    for [null] and for the empty string. *)
Definition onRequest (b : Api.Browser) (config : Config) : Config :=
  match Api.token b with
  | Some t =>
    if String.eqb t "" then config
    else mkConfig (method config) (url config) (Some ("Bearer " +:+ t))
  | None => config
  end.

(** How a call ends: the promise resolves to [response.data] or rejects
    with an axios error. *)
Inductive Reply (A : Type) : Type :=
| Resolves (data : A)
| Fails (e : Api.AxiosError).
Arguments Resolves {A} data.
Arguments Fails {A} e.

(** One call through the axios client: the config as the request
    interceptor sends it, and the browser after the response interceptor
    (which acts on a rejection only). *)
Definition request {A : Type} (config : Config) (reply : Reply A) (b : Api.Browser)
  : Api.Browser * Config :=
  (match reply with
   | Resolves _ => b
   | Fails e => (Api.onRejected e b).1
   end,
   onRequest b config).

(** [localStorage.setItem] and [localStorage.removeItem] *)
Definition setItem (key value : string) (b : Api.Browser) : Api.Browser :=
  Api.mkBrowser (Api.token b) (<[key := value]> (Api.localStorage b)) (Api.href b).
Definition removeItem (key : string) (b : Api.Browser) : Api.Browser :=
  Api.mkBrowser (Api.token b) (delete key (Api.localStorage b)) (Api.href b).

(** [apiService.login] and [apiService.getCurrentUser], api.ts lines 47-59,
    before the request interceptor. *)
Definition loginCall : Config := mkConfig "post" "/auth/login" None.
Definition getCurrentUser : Config := mkConfig "get" "/auth/me" None.

(** The provider's state together with the browser it acts on. *)
Record State : Type := mkState {
  browser : Api.Browser;
  user : option User;
  isLoading : bool;
}.

(** [fetchUserProfile], AuthContext.tsx lines 54-65. *)
Definition fetchUserProfile (me : Reply User) (s : State) : State * list Config :=
  let '(b, sent) := request getCurrentUser me (browser s) in
  match me with
  | Resolves userData => (mkState b (Some userData) false, [sent])
  | Fails _ => (mkState (Api.setToken None (removeItem "token" b)) (user s) false, [sent])
  end.

(** The mount effect, AuthContext.tsx lines 43-52. *)
Definition mount (me : Reply User) (s : State) : State * list Config :=
  match Api.localStorage (browser s) !! "token" with
  | Some token =>
    if String.eqb token "" then (mkState (browser s) (user s) false, [])
    else fetchUserProfile me (mkState (Api.setToken (Some token) (browser s)) (user s)
                                      (isLoading s))
  | None => (mkState (browser s) (user s) false, [])
  end.

(** [login], AuthContext.tsx lines 67-88: the state once the promise has
    settled, the boolean it resolves to and the requests sent.
    [access_token] is [response.access_token], absent when the reply has no
    such field. *)
Definition login (auth : Reply (option string)) (me : Reply User) (s : State)
  : State * bool * list Config :=
  let '(b1, sent1) := request loginCall auth (browser s) in
  match auth with
  | Fails _ => (mkState b1 (user s) false, false, [sent1])
  | Resolves access_token =>
    match access_token with
    | None => (mkState b1 (user s) false, false, [sent1])
    | Some token =>
      if String.eqb token "" then (mkState b1 (user s) false, false, [sent1])
      else
        let b2 := Api.setToken (Some token) (setItem "token" token b1) in
        let '(b3, sent2) := request getCurrentUser me b2 in
        match me with
        | Resolves userData => (mkState b3 (Some userData) false, true, [sent1; sent2])
        | Fails _ => (mkState b3 (user s) false, false, [sent1; sent2])
        end
    end
  end.

(** [logout], AuthContext.tsx lines 90-94. *)
Definition logout (s : State) : State :=
  mkState (Api.setToken None (removeItem "token" (browser s))) None (isLoading s).

(** What happens to a session after the page has loaded. *)
Inductive Event : Type :=
| Login (auth : Reply (option string)) (me : Reply User)
| Logout
| CallFails (e : Api.AxiosError).        (* any other call that is rejected *)

Definition step (s : State) (ev : Event) : State :=
  match ev with
  | Login auth me => (login auth me s).1.1
  | Logout => logout s
  | CallFails e => mkState (Api.onRejected e (browser s)).1 (user s) (isLoading s)
  end.

(** A page load: the module-level client has no token yet, [localStorage]
    is what earlier visits left. *)
Definition loaded (storage : gmap string string) (path : string) : State :=
  mkState (Api.mkBrowser None storage path) None true.

Definition run (storage : gmap string string) (path : string) (me : Reply User)
    (evs : list Event) : State :=
  fold_left step evs (mount me (loaded storage path)).1.

(** The client's token is the stored one; an empty stored token counts as
    none. *)
Definition in_sync (b : Api.Browser) : Prop :=
  match Api.localStorage b !! "token" with
  | Some t => Api.token b = if String.eqb t "" then None else Some t
  | None => Api.token b = None
  end.

End Auth.

(* ===================================================================== *)
(** ** Customer list (unnamed/part_000) *)
(* ===================================================================== *)

Module CustomerList.
Import JsDate.

(** The colour of the regime chip, lines 498-501. *)
Inductive Color : Type := error | warning | success.

Definition chipColor (tz now : Z) (c : Customers.Customer) : Color :=
  if Customers.isRegimeExpired tz now (Customers.tourism_regime_expiry c) then error
  else if Customers.isRegimeExpiringSoon tz now (Customers.tourism_regime_expiry c)
       then warning
       else success.

(** The "Vencen Pronto" and "Regímenes Vencidos" counters, lines 434 and
    448. *)
Definition expiringSoonCount (tz now : Z) (cs : list Customers.Customer) : nat :=
  length (filter (λ c, Customers.tourism_regime c
                       && Customers.isRegimeExpiringSoon tz now
                            (Customers.tourism_regime_expiry c) = true) cs).

Definition expiredCount (tz now : Z) (cs : list Customers.Customer) : nat :=
  length (filter (λ c, Customers.tourism_regime c
                       && Customers.isRegimeExpired tz now
                            (Customers.tourism_regime_expiry c) = true) cs).

End CustomerList.

(* ===================================================================== *)
(** ** Product list (unnamed/part_001) *)
(* ===================================================================== *)

Module ProductList.

(** [interface Product] of the product page. *)
Record Product : Type := mkProduct {
  id : Z;
  name : string;
  description : option string;
  sku : string;
  category_id : option Z;
  category_name : option string;
  unit_price : float;
  cost_price : float;
  stock_quantity : float;
  min_stock_level : float;
  max_stock_level : float;
  is_active : bool;
  expiry_date : JsDate.field;
}.

(** [isLowStock], lines 162-164. *)
Definition isLowStock (p : Product) : bool :=
  (stock_quantity p <=? min_stock_level p)%float.

(** The condition under which the alert box is rendered, line 271. *)
Definition alertShown (now : Z) (ps : list Product) : bool :=
  (0 <? length (filter (λ p, isLowStock p
                             || Products.isExpiringSoon now (expiry_date p)
                             || Products.isExpired now (expiry_date p) = true) ps))%nat.

(** The three lists inside the box, lines 277, 282 and 287. *)
Definition lowStockItems (ps : list Product) : list Product :=
  filter (λ p, isLowStock p = true) ps.

Definition expiredItems (now : Z) (ps : list Product) : list Product :=
  filter (λ p, Products.isExpired now (expiry_date p) = true) ps.

Definition expiringItems (now : Z) (ps : list Product) : list Product :=
  filter (λ p, Products.isExpiringSoon now (expiry_date p)
               && negb (Products.isExpired now (expiry_date p)) = true) ps.

End ProductList.

(* ===================================================================== *)
(** ** Quote dialog (Quotes.tsx) *)
(* ===================================================================== *)

Module QuoteDialog.

(** [interface Quote]; [lines] is read as [quote.lines || []]. *)
Record Quote : Type := mkQuote {
  id : Z;
  quote_number : string;
  customer_id : Z;
  customer_name : string;
  quote_date : string;
  valid_until : string;
  status : string;
  subtotal : float;
  tax_amount : float;
  total_amount : float;
  notes : option string;
  terms_conditions : option string;
  lines : option (list QuoteLine.t);
}.

(** The quote builder's state with the dialog flag. *)
Record Dialog : Type := mkDialog {
  state : Quotes.State;
  dialogOpen : bool;
}.

(** [handleOpenDialog], lines 141-164.  [today] and [in30days] are the two
    ISO dates the source derives from the clock. *)
Definition handleOpenDialog (quote : option Quote) (today in30days : string)
    (s : Quotes.State) : Dialog :=
  match quote with
  | Some q =>
    mkDialog
      (Quotes.mkState (Quotes.products s)
         (Quotes.mkFormData (customer_id q) (quote_date q) (valid_until q)
            (default "" (notes q)) (default "" (terms_conditions q)))
         (Some (id q)) (default [] (lines q))
         (Quotes.selectedProduct s) (Quotes.productQuantity s) (Quotes.productDiscount s))
      true
  | None =>
    mkDialog
      (Quotes.mkState (Quotes.products s)
         (Quotes.mkFormData 0 today in30days ""
            "Precios válidos por 30 días. No incluye IVA. Tiempo de entrega: 7 días hábiles.")
         None []
         (Quotes.selectedProduct s) (Quotes.productQuantity s) (Quotes.productDiscount s))
      true
  end.

(** [handleCloseDialog], lines 166-174. *)
Definition handleCloseDialog (s : Quotes.State) : Dialog :=
  mkDialog
    (Quotes.mkState (Quotes.products s) (Quotes.formData s) None [] None 1%float 0%float)
    false.

(** The [disabled] expression of the dialog's save button, line 822. *)
Definition saveDisabled (s : Quotes.State) : bool :=
  (Quotes.customer_id (Quotes.formData s) =? 0)%Z
  || (length (Quotes.quoteLines s) =? 0)%nat.

End QuoteDialog.

(* ===================================================================== *)
(** ** Deposit page (Quotes.tsx, second component) *)
(* ===================================================================== *)

Module DepositsPage.

(** [interface Deposit], as the page receives it. *)
Record Deposit : Type := mkDeposit {
  id : Z;
  deposit_number : string;
  customer_id : Z;
  customer_name : string;
  deposit_type : string;
  amount : float;
  currency : string;
  available_amount : float;
  status : string;
  deposit_date : string;
}.

Inductive ActionType : Type := apply | refund.

(** [actionData] *)
Record ActionData : Type := mkActionData {
  ad_amount : float;
  ad_invoice_id : float;
  ad_reason : string;
}.

(** The part of the component state the action dialog reads and writes. *)
Record State : Type := mkState {
  deposits : list Deposit;
  error : string;
  selectedDeposit : option Deposit;
  actionType : ActionType;
  actionData : ActionData;
  actionDialogOpen : bool;
}.

(** The state the component mounts with. *)
Definition initial : State :=
  mkState [] "" None apply (mkActionData 0%float 0%float "") false.

Definition setActionData (a : ActionData) (s : State) : State :=
  mkState (deposits s) (error s) (selectedDeposit s) (actionType s) a (actionDialogOpen s).

Definition setError (msg : string) (s : State) : State :=
  mkState (deposits s) msg (selectedDeposit s) (actionType s) (actionData s)
          (actionDialogOpen s).

(** The condition under which a row shows its two action buttons, line
    1254. *)
Definition rowActions (d : Deposit) : bool :=
  String.eqb (status d) "ACTIVE" && (0 <? available_amount d)%float.

(** [handleOpenActionDialog], lines 1004-1013. *)
Definition handleOpenActionDialog (d : Deposit) (action : ActionType) (s : State) : State :=
  mkState (deposits s) (error s) (Some d) action
    (mkActionData (match action with apply => available_amount d | refund => 0%float end)
                  0%float "")
    true.

(** [handleCloseActionDialog], lines 1015-1018. *)
Definition handleCloseActionDialog (s : State) : State :=
  mkState (deposits s) (error s) None (actionType s) (actionData s) false.

(** The [disabled] expression of the dialog's action button, lines
    1465-1469. *)
Definition actionDisabled (s : State) : bool :=
  Js.falsy (ad_amount (actionData s))
  || (match actionType s with apply => true | refund => false end
      && Js.falsy (ad_invoice_id (actionData s)))
  || (match actionType s with refund => true | apply => false end
      && String.eqb (ad_reason (actionData s)) "").

Inductive Request : Type :=
| ApplyDepositToInvoice (depositId : Z) (invoice_id amount : float)
| RefundDeposit (depositId : Z) (amount : float) (reason : string)
| GetDeposits
| GetCustomers.

(** How the backend answers a click on the action button: the call is
    rejected, or it resolves and the reload that follows returns the new
    list or fails. *)
Inductive Reply : Type :=
| Rejected
| Done (reloaded : option (list Deposit)).

(** [loadData], lines 955-971, on the part of the state kept here. *)
Definition loadData (reloaded : option (list Deposit)) (s : State) : State * list Request :=
  (match reloaded with
   | Some depositsData =>
     mkState depositsData (error s) (selectedDeposit s) (actionType s) (actionData s)
             (actionDialogOpen s)
   | None => setError "Error al cargar depósitos" s
   end,
   [GetDeposits; GetCustomers]).

(** The button's [onClick]: [handleApplyDeposit] (lines 1020-1035) or
    [handleRefundDeposit] (lines 1037-1052), by [actionType]. *)
Definition handleAction (reply : Reply) (s : State) : State * list Request :=
  match selectedDeposit s with
  | None => (s, [])
  | Some d =>
    let req :=
      match actionType s with
      | apply => ApplyDepositToInvoice (id d) (ad_invoice_id (actionData s))
                                       (ad_amount (actionData s))
      | refund => RefundDeposit (id d) (ad_amount (actionData s)) (ad_reason (actionData s))
      end in
    match reply with
    | Rejected =>
      (setError match actionType s with
                | apply => "Error al aplicar depósito"
                | refund => "Error al reembolsar depósito"
                end s,
       [req])
    | Done reloaded =>
      let sl := loadData reloaded s in
      (handleCloseActionDialog sl.1, req :: sl.2)
    end
  end.

(** What the user can do with the rows and the action dialog.  A row's
    two buttons exist only under [rowActions]; the dialog's inputs and
    buttons only while it is open. *)
Inductive Event : Type :=
| OpenAction (d : Deposit) (action : ActionType)
| EnterAmount (v : float)                    (* Number(e.target.value) *)
| EnterInvoiceId (v : float)
| EnterReason (v : string)
| CloseAction
| ClickAction (reply : Reply).

Definition step (st : State * list Request) (e : Event) : State * list Request :=
  let '(s, sent) := st in
  match e with
  | OpenAction d action =>
    if rowActions d then (handleOpenActionDialog d action s, sent) else (s, sent)
  | EnterAmount v =>
    (setActionData (mkActionData v (ad_invoice_id (actionData s)) (ad_reason (actionData s))) s,
     sent)
  | EnterInvoiceId v =>
    (setActionData (mkActionData (ad_amount (actionData s)) v (ad_reason (actionData s))) s,
     sent)
  | EnterReason v =>
    (setActionData (mkActionData (ad_amount (actionData s)) (ad_invoice_id (actionData s)) v) s,
     sent)
  | CloseAction => (handleCloseActionDialog s, sent)
  | ClickAction reply =>
    if actionDialogOpen s && negb (actionDisabled s) then
      let '(s', reqs) := handleAction reply s in (s', sent ++ reqs)
    else (s, sent)
  end.

(** The state after a sequence of events, with every request sent so far. *)
Definition run (es : list Event) : State * list Request :=
  fold_left step es (initial, []).

(** A request the action button may send: a usable amount, and the field
    its action needs. *)
Definition complete (r : Request) : Prop :=
  match r with
  | ApplyDepositToInvoice _ invoice_id amount =>
    Js.falsy amount = false ∧ Js.falsy invoice_id = false
  | RefundDeposit _ amount reason => Js.falsy amount = false ∧ reason ≠ ""
  | GetDeposits | GetCustomers => True
  end.

(** The deposit a request acts on. *)
Definition target (r : Request) : option Z :=
  match r with
  | ApplyDepositToInvoice depositId _ _ | RefundDeposit depositId _ _ => Some depositId
  | GetDeposits | GetCustomers => None
  end.

(** The invariant of [run]. *)
Definition sound (st : State * list Request) : Prop :=
  (∀ d, selectedDeposit st.1 = Some d → rowActions d = true)
  ∧ (∀ r, r ∈ st.2 → complete r)
  ∧ (∀ r depositId, r ∈ st.2 → target r = Some depositId →
       ∃ d, id d = depositId ∧ rowActions d = true).

End DepositsPage.

(* ===================================================================== *)
(** ** Quote dialog: the line table (Quotes.tsx) *)
(* ===================================================================== *)

Module QuoteRows.

(** The three inputs of a rendered row, lines 720-745. *)
Inductive Field : Type := quantity | unit_price | discount.

(** The [(field, value)] pair a row input passes to [handleUpdateLine];
    [value] is [Number(e.target.value)]. *)
Definition edit (field : Field) (value : float) : QuoteLine.update :=
  match field with
  | quantity => QuoteLine.Set_quantity value
  | unit_price => QuoteLine.Set_unit_price value
  | discount => QuoteLine.Set_discount value
  end.

(** What the user can do in the dialog's product section: the panel above
    the table, an input of a row, the remove button of a row.  A row event
    names the index of the row it comes from. *)
Inductive Event : Type :=
| Panel (e : Quotes.Event)
| UpdateLine (index : nat) (field : Field) (value : float)
| RemoveRow (index : nat).

(** One event; [None] when the event names a row that is not rendered. *)
Definition step (s : Quotes.State) (e : Event) : option Quotes.State :=
  match e with
  | Panel e => Some (Quotes.step s e)
  | UpdateLine index field value => Quotes.handleUpdateLine index (edit field value) s
  | RemoveRow index =>
    line ← Quotes.quoteLines s !! index;
    Some (Quotes.handleRemoveProduct (QuoteLine.product_id line) s)
  end.

Fixpoint run (s : Quotes.State) (es : list Event) : option Quotes.State :=
  match es with
  | [] => Some s
  | e :: es => s' ← step s e; run s' es
  end.

(** What every event of the product section keeps. *)
Definition kept (s0 s : Quotes.State) : Prop :=
  (NoDup (Quotes.line_ids s0) → NoDup (Quotes.line_ids s))
  ∧ (Forall Quotes.consistent (Quotes.quoteLines s0) →
     Forall Quotes.consistent (Quotes.quoteLines s))
  ∧ Quotes.products s = Quotes.products s0
  ∧ Quotes.formData s = Quotes.formData s0
  ∧ Quotes.editingQuote s = Quotes.editingQuote s0.

End QuoteRows.

(* ===================================================================== *)
(** ** Quote lines as shared objects (Quotes.tsx) *)
(* ===================================================================== *)

Module QuoteStore.

(** A quote line is a JavaScript object: arrays hold references to it.
    [quote_lines] is the [lines] array of the quote the dialog was opened
    on, which the [quotes] list keeps; [quoteLines] is the dialog's array.
    The handlers never write into an array, they build a new one; what
    they write into is a line object. *)
Record State : Type := mkState {
  heap : gmap nat QuoteLine.t;
  quote_lines : list nat;
  products : list Product.t;
  formData : Quotes.FormData;
  editingQuote : option Z;
  quoteLines : list nat;
  selectedProduct : option Product.t;
  productQuantity : float;
  productDiscount : float;
}.

(** The objects the references of an array point to. *)
Definition lines_at (h : gmap nat QuoteLine.t) (refs : list nat) (ls : list QuoteLine.t)
  : Prop :=
  Forall2 (λ r line, h !! r = Some line) refs ls.

(** [line.product_id] read through a reference. *)
Definition product_id_at (h : gmap nat QuoteLine.t) (r : nat) : option Z :=
  QuoteLine.product_id <$> h !! r.

(** [handleOpenDialog(quote)], line 151: [setQuoteLines(quote.lines)]. *)
Definition handleOpenDialog (s : State) : State :=
  mkState (heap s) (quote_lines s) (products s) (formData s) (editingQuote s)
          (quote_lines s) (selectedProduct s) (productQuantity s) (productDiscount s).

(** [handleCloseDialog], lines 166-174. *)
Definition handleCloseDialog (s : State) : State :=
  mkState (heap s) (quote_lines s) (products s) (formData s) None [] None 1%float 0%float.

(** [handleAddProduct], lines 176-206: an existing line is written in
    place, through the reference the copied array shares with the old one;
    a new line is a new object. *)
Definition handleAddProduct (s : State) : State :=
  match selectedProduct s with
  | None => s
  | Some sp =>
    match list_find (λ r, product_id_at (heap s) r = Some (Product.id sp)) (quoteLines s) with
    | Some (existingLineIndex, r) =>
      mkState
        (alter (λ line, Quotes.merged_line line (productQuantity s) (productDiscount s))
               r (heap s))
        (quote_lines s) (products s) (formData s) (editingQuote s)
        (quoteLines s) None 1%float 0%float
    | None =>
      let r := fresh (dom (heap s)) in
      mkState
        (<[r := Quotes.new_line sp (productQuantity s) (productDiscount s)]> (heap s))
        (quote_lines s) (products s) (formData s) (editingQuote s)
        (quoteLines s ++ [r]) None 1%float 0%float
    end
  end.

(** [handleRemoveProduct], lines 208-210. *)
Definition handleRemoveProduct (productId : Z) (s : State) : State :=
  mkState (heap s) (quote_lines s) (products s) (formData s) (editingQuote s)
          (filter (λ r, product_id_at (heap s) r ≠ Some productId) (quoteLines s))
          (selectedProduct s) (productQuantity s) (productDiscount s).

(** [handleUpdateLine], lines 212-225: the spread makes a new object, and
    the subtotal is written into that one. *)
Definition handleUpdateLine (index : nat) (u : QuoteLine.update) (s : State) : option State :=
  match quoteLines s !! index ≫= (λ r, heap s !! r) with
  | Some line =>
    let r := fresh (dom (heap s)) in
    Some (mkState (<[r := Quotes.updated_line line u]> (heap s))
                  (quote_lines s) (products s) (formData s) (editingQuote s)
                  (<[index := r]> (quoteLines s))
                  (selectedProduct s) (productQuantity s) (productDiscount s))
  | None => None
  end.

(** The state in which the line objects are replaced by their values. *)
Definition values (s : State) (ls : list QuoteLine.t) : Quotes.State :=
  Quotes.mkState (products s) (formData s) (editingQuote s) ls
                 (selectedProduct s) (productQuantity s) (productDiscount s).

(** The dialog's array refers to the lines [ls], each through a reference
    of its own. *)
Definition represents (s : State) (ls : list QuoteLine.t) : Prop :=
  lines_at (heap s) (quoteLines s) ls ∧ NoDup (quoteLines s).

End QuoteStore.

(* ===================================================================== *)
(** ** Further sample sessions *)
(* ===================================================================== *)

Module Scenario.

(** A new quote: two units of yerba, one cable with 5 % off, then the
    cable row's discount retyped as 10 and the yerba row removed. *)
Definition session : list QuoteRows.Event :=
  (QuoteRows.Panel <$> Sample.add Sample.yerba 2 0)
  ++ (QuoteRows.Panel <$> Sample.add Sample.cable 1 5)
  ++ [QuoteRows.UpdateLine 1 QuoteRows.discount 10; QuoteRows.RemoveRow 0].

Definition blank : Quotes.State := Quotes.newQuote Sample.catalog Sample.form.

(** [blank] after [session]. *)
Definition quoted : Quotes.State := default blank (QuoteRows.run blank session).

(** [Sample.quote_cable] with yerba picked in the panel. *)
Definition cable_then_yerba : Quotes.State :=
  Quotes.run Sample.quote_cable
    [Quotes.SelectProduct (Some Sample.yerba); Quotes.EnterQuantity 2].

(** A deposit with 300000 still available. *)
Definition anticipo : DepositsPage.Deposit :=
  DepositsPage.mkDeposit 1 "DEP-0001" 5 "Hotel Guarani SA" "ANTICIPO" 500000%float "PYG"
    300000%float "ACTIVE" "2025-03-01".

(** The list holds a quote with one line, 1 unit of yerba; yerba is
    picked again in the panel, 2 units with 10 % off. *)
Definition stored_quote : QuoteStore.State :=
  QuoteStore.mkState {[ 0%nat := QuoteLine.mk 7 (Some "Yerba mate 1kg") 1 99 0 99 ]} [0%nat]
    Sample.catalog Sample.form (Some 31%Z) [] (Some Sample.yerba) 2%float 10%float.

End Scenario.

(* ===================================================================== *)
(** ** Numbers: the [||] guard *)
(* ===================================================================== *)

Section OrElse.
Local Open Scope float_scope.

Lemma or_else_truthy x d : Js.falsy x = false → x |? d = x.
Proof. unfold Js.or_else. by intros ->. Qed.

Lemma or_else_falsy x d : Js.falsy x = true → x |? d = d.
Proof. unfold Js.or_else. by intros ->. Qed.

(** A guard whose default is truthy always yields a truthy number. *)
Lemma falsy_or_else x d : Js.falsy d = false → Js.falsy (x |? d) = false.
Proof.
  intros Hd. unfold Js.or_else. destruct (Js.falsy x) eqn:Hx; [exact Hd | exact Hx].
Qed.

(** Guarding twice with 0 is guarding once. *)
Lemma or_else_zero_idem x : (x |? 0) |? 0 = x |? 0.
Proof.
  destruct (Js.falsy x) eqn:Hx.
  - rewrite (or_else_falsy x 0 Hx). reflexivity.
  - rewrite (or_else_truthy x 0 Hx). by apply or_else_truthy.
Qed.

(** [(x || 1) || 0] is [x || 1]. *)
Lemma or_else_one_zero x : (x |? 1) |? 0 = x |? 1.
Proof. apply or_else_truthy, falsy_or_else. reflexivity. Qed.

Lemma nan_is_not_zero : (0 : float) ≠ nan.
Proof. intros H. apply (f_equal PrimFloat.is_nan) in H. vm_compute in H. discriminate. Qed.
End OrElse.

(* ===================================================================== *)
(** ** Numbers: zeros and their sign *)
(* ===================================================================== *)

Section ZeroSign.
Local Open Scope float_scope.

(** The zeros are the two values [Prim2SF] maps to [S754_zero]. *)
Lemma is_zero_SF x : PrimFloat.is_zero x = true ↔ ∃ s, Prim2SF x = S754_zero s.
Proof.
  unfold PrimFloat.is_zero. rewrite FloatAxioms.eqb_spec.
  change (Prim2SF zero) with (S754_zero false).
  destruct (Prim2SF x) as [s | s | | s m e]; simpl.
  - split; eauto.
  - destruct s; split; try discriminate; intros [? [=]].
  - split; try discriminate; intros [? [=]].
  - destruct s; split; try discriminate; intros [? [=]].
Qed.

Lemma add_zero_l a x :
  PrimFloat.is_zero a = true → PrimFloat.is_zero x = false → a + x = x.
Proof.
  intros [s Ha]%is_zero_SF Hx. apply Prim2SF_inj.
  rewrite add_spec, Ha. unfold SF64add, SFadd.
  destruct (Prim2SF x) as [sx | sx | | sx m e] eqn:E; try reflexivity.
  assert (PrimFloat.is_zero x = true) by (apply is_zero_SF; eauto). congruence.
Qed.

Lemma add_zero_r a x :
  PrimFloat.is_zero x = true → PrimFloat.is_zero a = false → a + x = a.
Proof.
  intros [s Hx]%is_zero_SF Ha. apply Prim2SF_inj.
  rewrite add_spec, Hx. unfold SF64add, SFadd.
  destruct (Prim2SF a) as [sa | sa | | sa m e] eqn:E; try reflexivity.
  assert (PrimFloat.is_zero a = true) by (apply is_zero_SF; eauto). congruence.
Qed.

Lemma add_zeros a x :
  PrimFloat.is_zero a = true → PrimFloat.is_zero x = true →
  PrimFloat.is_zero (a + x) = true.
Proof.
  intros [sa Ha]%is_zero_SF [sx Hx]%is_zero_SF. apply is_zero_SF.
  rewrite add_spec, Ha, Hx. destruct sa, sx; simpl; eauto.
Qed.

(** Addition does not tell the two zeros apart, except in the sign of a
    zero result. *)
Lemma same_number_add a a' x x' :
  Js.same_number a a' → Js.same_number x x' → Js.same_number (a + x) (a' + x').
Proof.
  intros [-> | [Ha Ha']] [-> | [Hx Hx']].
  - by left.
  - destruct (PrimFloat.is_zero a') eqn:Hz.
    + right. split; by apply add_zeros.
    + left. by rewrite !add_zero_r.
  - destruct (PrimFloat.is_zero x') eqn:Hz.
    + right. split; by apply add_zeros.
    + left. by rewrite !add_zero_l.
  - right. split; by apply add_zeros.
Qed.

(** A product with a zero factor is [NaN] or a zero, whatever the zero's
    sign. *)
Lemma mul_zero_r b y y' :
  PrimFloat.is_zero y = true → PrimFloat.is_zero y' = true →
  Js.same_number (b * y) (b * y').
Proof.
  intros [s Hy]%is_zero_SF [s' Hy']%is_zero_SF.
  destruct (Prim2SF b) as [sb | sb | | sb m e] eqn:E.
  - right. split; apply is_zero_SF; rewrite mul_spec, E;
      [rewrite Hy | rewrite Hy']; simpl; eauto.
  - left. apply Prim2SF_inj. by rewrite !mul_spec, E, Hy, Hy'.
  - left. apply Prim2SF_inj. by rewrite !mul_spec, E, Hy, Hy'.
  - right. split; apply is_zero_SF; rewrite mul_spec, E;
      [rewrite Hy | rewrite Hy']; simpl; eauto.
Qed.

Lemma mul_zero_l b y y' :
  PrimFloat.is_zero y = true → PrimFloat.is_zero y' = true →
  Js.same_number (y * b) (y' * b).
Proof.
  intros [s Hy]%is_zero_SF [s' Hy']%is_zero_SF.
  destruct (Prim2SF b) as [sb | sb | | sb m e] eqn:E.
  - right. split; apply is_zero_SF; rewrite mul_spec, E;
      [rewrite Hy | rewrite Hy']; simpl; eauto.
  - left. apply Prim2SF_inj. by rewrite !mul_spec, E, Hy, Hy'.
  - left. apply Prim2SF_inj. by rewrite !mul_spec, E, Hy, Hy'.
  - right. split; apply is_zero_SF; rewrite mul_spec, E;
      [rewrite Hy | rewrite Hy']; simpl; eauto.
Qed.

Lemma same_number_mul a a' x x' :
  Js.same_number a a' → Js.same_number x x' → Js.same_number (a * x) (a' * x').
Proof.
  intros [-> | [Ha Ha']] [-> | [Hx Hx']].
  - by left.
  - by apply mul_zero_r.
  - by apply mul_zero_l.
  - apply is_zero_SF in Ha as [s Ha]. apply is_zero_SF in Ha' as [s' Ha'].
    apply is_zero_SF in Hx as [t Hx]. apply is_zero_SF in Hx' as [t' Hx'].
    right. split; apply is_zero_SF; rewrite mul_spec;
      [rewrite Ha, Hx | rewrite Ha', Hx']; simpl; eauto.
Qed.

Lemma div_100_zero d : PrimFloat.is_zero d = true → PrimFloat.is_zero (d / 100) = true.
Proof.
  intros [s Hd]%is_zero_SF. apply is_zero_SF. rewrite div_spec, Hd.
  destruct (Prim2SF 100) eqn:E; try (vm_compute in E; discriminate).
  simpl. eauto.
Qed.

Lemma one_minus_zero z : PrimFloat.is_zero z = true → 1 - z = 1.
Proof.
  intros [s Hz]%is_zero_SF. apply Prim2SF_inj. rewrite sub_spec, Hz.
  destruct (Prim2SF 1) eqn:E; try (vm_compute in E; discriminate).
  reflexivity.
Qed.

(** The discount factor does not depend on the sign of a zero discount. *)
Lemma discount_factor_same d d' :
  Js.same_number d d' → 1 - d / 100 = 1 - d' / 100.
Proof.
  intros [-> | [Hd Hd']]; [done |].
  by rewrite !one_minus_zero by (by apply div_100_zero).
Qed.

Lemma line_amount_same q q' p p' d d' :
  Js.same_number q q' → Js.same_number p p' → Js.same_number d d' →
  Js.same_number (Quotes.line_amount q p d) (Quotes.line_amount q' p' d').
Proof.
  intros Hq Hp Hd. unfold Quotes.line_amount.
  rewrite (discount_factor_same d d' Hd).
  apply same_number_mul; [by apply same_number_mul | by left].
Qed.

(** On a number that is not [NaN] the guard [|| 0] changes at most the
    sign of a zero. *)
Lemma or_else_zero_same x : PrimFloat.is_nan x = false → Js.same_number (x |? 0) x.
Proof.
  intros Hn. unfold Js.or_else, Js.falsy. rewrite Hn. simpl.
  destruct (PrimFloat.is_zero x) eqn:Hz; [right | left]; done.
Qed.

Lemma sum_same (xs ys : list float) a a' :
  Forall2 Js.same_number xs ys → Js.same_number a a' →
  Js.same_number (fold_left PrimFloat.add xs a) (fold_left PrimFloat.add ys a').
Proof.
  intros H. revert a a'.
  induction H as [|x y xs ys Hxy _ IH]; intros a a' Ha; simpl; [done |].
  apply IH. by apply same_number_add.
Qed.
End ZeroSign.

(* ===================================================================== *)
(** ** Quote totals *)
(* ===================================================================== *)

Section QuoteTotals.
Local Open Scope float_scope.

(** [reduce] with [sum + g line] adds up the list of the [g line]. *)
Lemma reduce_add_map {A : Type} (g : A → float) (ls : list A) (a : float) :
  Js.reduce (λ sum line, sum + g line) a ls = fold_left PrimFloat.add (g <$> ls) a.
Proof.
  unfold Js.reduce. revert a.
  induction ls as [|l ls IH]; intros a; simpl; [reflexivity | apply IH].
Qed.

Lemma calculateTotals_subtotal s :
  Quotes.subtotal (Quotes.calculateTotals s)
  = Claimed.sum ((λ line, QuoteLine.subtotal line |? 0) <$> Quotes.quoteLines s).
Proof. unfold Quotes.calculateTotals, Claimed.sum. simpl. apply reduce_add_map. Qed.

Lemma handleSubmit_data s :
  let d := Quotes.request_data (Quotes.handleSubmit s) in
  let t := Quotes.calculateTotals s in
  Quotes.qd_subtotal d = Quotes.subtotal t
  ∧ Quotes.qd_tax_amount d = Quotes.taxAmount t
  ∧ Quotes.qd_total_amount d = Quotes.total t.
Proof. unfold Quotes.handleSubmit. destruct (Quotes.editingQuote s); simpl; auto. Qed.

(** The specification's worked example, in binary64 arithmetic: one line
    of 3 x 100000 at 10 % gives 270000, 27000 and 297000. *)
Example totals_of_quote_cable :
  QuoteLine.subtotal <$> Quotes.quoteLines Sample.quote_cable = [270000]
  ∧ Quotes.calculateTotals Sample.quote_cable = Quotes.mkTotals 270000 27000 297000.
Proof. split; vm_compute; reflexivity. Qed.

(** C1, as stated, fails: the line of [Sample.quote_turbina] has subtotal
    [NaN]; [calculateTotals] reads it through [|| 0] and returns 0, while
    the sum of the subtotal fields is [NaN]. *)
Lemma C1_nan_subtotal_counts_as_zero :
  QuoteLine.subtotal <$> Quotes.quoteLines Sample.quote_turbina = [nan]
  ∧ Quotes.subtotal (Quotes.calculateTotals Sample.quote_turbina) = 0
  ∧ Claimed.sum_of_subtotals (Quotes.quoteLines Sample.quote_turbina) = nan
  ∧ Quotes.subtotal (Quotes.calculateTotals Sample.quote_turbina)
    ≠ Claimed.sum_of_subtotals (Quotes.quoteLines Sample.quote_turbina).
Proof.
  assert (H1 : Quotes.subtotal (Quotes.calculateTotals Sample.quote_turbina) = 0)
    by (vm_compute; reflexivity).
  assert (H2 : Claimed.sum_of_subtotals (Quotes.quoteLines Sample.quote_turbina) = nan)
    by (vm_compute; reflexivity).
  split; [vm_compute; reflexivity |].
  split; [exact H1 |]. split; [exact H2 |].
  rewrite H1, H2. exact nan_is_not_zero.
Qed.

(** Without a [NaN] among the subtotal fields, the guard is invisible in
    the total. *)
Lemma calculateTotals_plain_sum s :
  Forall (λ line, PrimFloat.is_nan (QuoteLine.subtotal line) = false) (Quotes.quoteLines s) →
  Js.same_number (Quotes.subtotal (Quotes.calculateTotals s))
                 (Claimed.sum_of_subtotals (Quotes.quoteLines s)).
Proof.
  intros Hnum. rewrite calculateTotals_subtotal.
  unfold Claimed.sum_of_subtotals, Claimed.sum.
  apply sum_same; [| by left].
  apply Forall2_fmap, Forall_Forall2_diag.
  eapply Forall_impl; [exact Hnum |]. intros line. apply or_else_zero_same.
Qed.

(** C1 (amended): for every list of quote lines, [calculateTotals] returns
    subtotal = the sum of the lines' subtotal fields with a falsy field
    (NaN or zero) counted as 0, which is the sum of the subtotal fields
    whenever none of them is NaN (up to the sign of a zero total);
    taxAmount = subtotal * 0.1 and total = subtotal + taxAmount; and
    [handleSubmit] sends exactly these three values as subtotal, tax_amount
    and total_amount. *)
Theorem C1_quote_totals (s : Quotes.State) :
  let t := Quotes.calculateTotals s in
  let sent := Quotes.request_data (Quotes.handleSubmit s) in
  Quotes.subtotal t
    = Claimed.sum ((λ line, QuoteLine.subtotal line |? 0) <$> Quotes.quoteLines s)
  ∧ (Forall (λ line, PrimFloat.is_nan (QuoteLine.subtotal line) = false)
            (Quotes.quoteLines s) →
       Js.same_number (Quotes.subtotal t) (Claimed.sum_of_subtotals (Quotes.quoteLines s)))
  ∧ Quotes.taxAmount t = Quotes.subtotal t * 0.1
  ∧ Quotes.total t = Quotes.subtotal t + Quotes.taxAmount t
  ∧ Quotes.qd_subtotal sent = Quotes.subtotal t
  ∧ Quotes.qd_tax_amount sent = Quotes.taxAmount t
  ∧ Quotes.qd_total_amount sent = Quotes.total t.
Proof.
  intros t sent.
  split; [apply calculateTotals_subtotal |].
  split; [apply calculateTotals_plain_sum |].
  split; [reflexivity |].
  split; [reflexivity |].
  apply handleSubmit_data.
Qed.

Lemma C1_quote_totals_witness :
  Js.same_number (Quotes.subtotal (Quotes.calculateTotals Sample.quote_cable))
                 (Claimed.sum_of_subtotals (Quotes.quoteLines Sample.quote_cable)).
Proof.
  apply (proj1 (proj2 (C1_quote_totals Sample.quote_cable))).
  repeat constructor.
Defined.
End QuoteTotals.

(* ===================================================================== *)
(** ** Quote lines *)
(* ===================================================================== *)

Section QuoteLines.
Implicit Types (s : Quotes.State) (l : QuoteLine.t) (sp : Product.t).

Lemma new_line_consistent sp pq pd : Quotes.consistent (Quotes.new_line sp pq pd).
Proof.
  unfold Quotes.consistent, Quotes.recalculated, Quotes.new_line. simpl.
  by rewrite or_else_one_zero, !or_else_zero_idem.
Qed.

Lemma merged_line_consistent l pq pd : Quotes.consistent (Quotes.merged_line l pq pd).
Proof. reflexivity. Qed.

Lemma updated_line_consistent l u :
  QuoteLine.recalculates u = true → Quotes.consistent (Quotes.updated_line l u).
Proof.
  intros Hu. unfold Quotes.updated_line. rewrite Hu. reflexivity.
Qed.

(** The lines [handleAddProduct] leaves when a product is selected. *)
Lemma handleAddProduct_lines s sp :
  Quotes.selectedProduct s = Some sp →
  Quotes.quoteLines (Quotes.handleAddProduct s)
  = match list_find (λ line, QuoteLine.product_id line = Product.id sp) (Quotes.quoteLines s) with
    | Some (i, line) =>
      <[i := Quotes.merged_line line (Quotes.productQuantity s) (Quotes.productDiscount s)]>
        (Quotes.quoteLines s)
    | None =>
      Quotes.quoteLines s
        ++ [Quotes.new_line sp (Quotes.productQuantity s) (Quotes.productDiscount s)]
    end.
Proof. intros H. unfold Quotes.handleAddProduct. rewrite H. reflexivity. Qed.

(** After an add, the selected product has a line and that line is
    consistent. *)
Lemma handleAddProduct_line s sp :
  Quotes.selectedProduct s = Some sp →
  ∃ i l, Quotes.quoteLines (Quotes.handleAddProduct s) !! i = Some l
         ∧ QuoteLine.product_id l = Product.id sp
         ∧ Quotes.consistent l.
Proof.
  intros H. rewrite (handleAddProduct_lines s sp H).
  destruct (list_find _ _) as [[i line]|] eqn:Hfind.
  - apply list_find_Some in Hfind as (Hi & Hid & _).
    exists i, (Quotes.merged_line line (Quotes.productQuantity s) (Quotes.productDiscount s)).
    split; [| split; [exact Hid | apply merged_line_consistent]].
    apply list_lookup_insert_eq. by eapply lookup_lt_Some.
  - exists (length (Quotes.quoteLines s)),
           (Quotes.new_line sp (Quotes.productQuantity s) (Quotes.productDiscount s)).
    split; [| split; [reflexivity | apply new_line_consistent]].
    by apply list_lookup_middle.
Qed.

Lemma handleAddProduct_consistent s :
  Forall Quotes.consistent (Quotes.quoteLines s) →
  Forall Quotes.consistent (Quotes.quoteLines (Quotes.handleAddProduct s)).
Proof.
  intros Hall. destruct (Quotes.selectedProduct s) as [sp|] eqn:H.
  - rewrite (handleAddProduct_lines s sp H).
    destruct (list_find _ _) as [[i line]|].
    + apply Forall_insert; [exact Hall | apply merged_line_consistent].
    + apply Forall_app. split; [exact Hall |].
      constructor; [apply new_line_consistent | constructor].
  - unfold Quotes.handleAddProduct. by rewrite H.
Qed.

Lemma handleRemoveProduct_consistent productId s :
  Forall Quotes.consistent (Quotes.quoteLines s) →
  Forall Quotes.consistent (Quotes.quoteLines (Quotes.handleRemoveProduct productId s)).
Proof.
  rewrite !Forall_forall. intros Hall l Hl. apply Hall.
  simpl in Hl. by apply list_elem_of_filter in Hl as [_ Hl].
Qed.

Lemma handleUpdateLine_line index u s s' :
  Quotes.handleUpdateLine index u s = Some s' →
  ∃ l, Quotes.quoteLines s !! index = Some l
       ∧ Quotes.quoteLines s' = <[index := Quotes.updated_line l u]> (Quotes.quoteLines s)
       ∧ Quotes.quoteLines s' !! index = Some (Quotes.updated_line l u)
       ∧ Quotes.products s' = Quotes.products s.
Proof.
  unfold Quotes.handleUpdateLine.
  destruct (Quotes.quoteLines s !! index) as [l|] eqn:Hl; [|discriminate].
  intros [= <-]. exists l. simpl.
  split; [reflexivity |]. split; [reflexivity |]. split; [| reflexivity].
  apply list_lookup_insert_eq. by eapply lookup_lt_Some.
Qed.

Lemma handleUpdateLine_consistent index u s s' :
  QuoteLine.recalculates u = true →
  Quotes.handleUpdateLine index u s = Some s' →
  Forall Quotes.consistent (Quotes.quoteLines s) →
  Forall Quotes.consistent (Quotes.quoteLines s').
Proof.
  intros Hu Hs Hall. apply handleUpdateLine_line in Hs as (l & _ & -> & _).
  apply Forall_insert; [exact Hall | by apply updated_line_consistent].
Qed.
End QuoteLines.

Section QuoteLineClaims.
Implicit Types (s : Quotes.State) (l : QuoteLine.t) (sp : Product.t).
Local Open Scope float_scope.

Lemma float_92_differ : (92.8125 : float) ≠ 92.81.
Proof.
  intros H. apply (f_equal (λ x, PrimFloat.eqb x 92.8125)) in H.
  vm_compute in H. discriminate.
Qed.

(** C2, as stated, fails: one unit of a product priced 99 at 6.25 % off
    gets the subtotal 92.8125, which is not a two-decimal amount; rounded
    to 2 decimal places the formula gives 92.81. *)
Lemma C2_subtotal_is_not_rounded :
  QuoteLine.subtotal <$> Quotes.quoteLines Sample.quote_yerba = [92.8125]
  ∧ (λ l, Claimed.round2 (Claimed.line_formula l)) <$> Quotes.quoteLines Sample.quote_yerba
    = [92.81]
  ∧ QuoteLine.subtotal <$> Quotes.quoteLines Sample.quote_yerba
    ≠ (λ l, Claimed.round2 (Claimed.line_formula l)) <$> Quotes.quoteLines Sample.quote_yerba.
Proof.
  assert (H1 : QuoteLine.subtotal <$> Quotes.quoteLines Sample.quote_yerba = [92.8125])
    by (vm_compute; reflexivity).
  assert (H2 : (λ l, Claimed.round2 (Claimed.line_formula l))
                 <$> Quotes.quoteLines Sample.quote_yerba = [92.81])
    by (vm_compute; reflexivity).
  split; [exact H1 |]. split; [exact H2 |].
  rewrite H1, H2. intros H.
  exact (float_92_differ (f_equal (λ xs, default 0 (head xs)) H)).
Qed.

(** A consistent line whose fields are numbers carries the plain formula,
    up to the sign of a zero. *)
Lemma consistent_formula l :
  Quotes.consistent l → Quotes.numeric l →
  Js.same_number (QuoteLine.subtotal l) (Claimed.line_formula l).
Proof.
  intros -> (Hq & Hp & Hd). unfold Quotes.recalculated, Claimed.line_formula.
  apply line_amount_same; by apply or_else_zero_same.
Qed.

(** C2 (amended): no rounding takes place.  After [handleAddProduct] the
    line of the added product, and after [handleUpdateLine] of quantity,
    unit_price or discount the edited line, has
    subtotal = (quantity || 0) * (unit_price || 0) * (1 - (discount || 0) / 100)
    in binary64 arithmetic on its own fields; when none of the three fields
    is NaN this is quantity * unit_price * (1 - discount / 100), not rounded
    (up to the sign of a zero).  Both handlers keep every other line that
    satisfied the first equation satisfying it. *)
Theorem C2_line_subtotal s :
  (∀ sp, Quotes.selectedProduct s = Some sp →
     ∃ i l, Quotes.quoteLines (Quotes.handleAddProduct s) !! i = Some l
            ∧ QuoteLine.product_id l = Product.id sp
            ∧ QuoteLine.subtotal l
              = (QuoteLine.quantity l |? 0) * (QuoteLine.unit_price l |? 0)
                * (1 - (QuoteLine.discount l |? 0) / 100)
            ∧ (Quotes.numeric l →
                 Js.same_number
                   (QuoteLine.subtotal l)
                   (QuoteLine.quantity l * QuoteLine.unit_price l
                    * (1 - QuoteLine.discount l / 100))))
  ∧ (∀ index u s', QuoteLine.recalculates u = true →
       Quotes.handleUpdateLine index u s = Some s' →
       ∃ l, Quotes.quoteLines s' !! index = Some l
            ∧ QuoteLine.subtotal l
              = (QuoteLine.quantity l |? 0) * (QuoteLine.unit_price l |? 0)
                * (1 - (QuoteLine.discount l |? 0) / 100)
            ∧ (Quotes.numeric l →
                 Js.same_number
                   (QuoteLine.subtotal l)
                   (QuoteLine.quantity l * QuoteLine.unit_price l
                    * (1 - QuoteLine.discount l / 100))))
  ∧ (Forall Quotes.consistent (Quotes.quoteLines s) →
       Forall Quotes.consistent (Quotes.quoteLines (Quotes.handleAddProduct s))
       ∧ ∀ index u s', QuoteLine.recalculates u = true →
           Quotes.handleUpdateLine index u s = Some s' →
           Forall Quotes.consistent (Quotes.quoteLines s')).
Proof.
  split; [| split].
  - intros sp Hsel.
    destruct (handleAddProduct_line s sp Hsel) as (i & l & Hl & Hid & Hc).
    exists i, l. split; [exact Hl |]. split; [exact Hid |]. split; [exact Hc |].
    by apply consistent_formula.
  - intros index u s' Hu Hs.
    apply handleUpdateLine_line in Hs as (l & _ & _ & Hl & _).
    exists (Quotes.updated_line l u). split; [exact Hl |].
    pose proof (updated_line_consistent l u Hu) as Hc.
    split; [exact Hc | by apply consistent_formula].
  - intros Hall. split; [by apply handleAddProduct_consistent |].
    intros index u s' Hu Hs. by eapply handleUpdateLine_consistent.
Qed.

Lemma C2_line_subtotal_witness :
  (∃ i l, Quotes.quoteLines (Quotes.handleAddProduct Sample.quote_yerba_again) !! i = Some l
          ∧ QuoteLine.product_id l = Product.id Sample.yerba
          ∧ QuoteLine.subtotal l
            = (QuoteLine.quantity l |? 0) * (QuoteLine.unit_price l |? 0)
              * (1 - (QuoteLine.discount l |? 0) / 100))
  ∧ (∃ l, Quotes.quoteLines Sample.quote_yerba_edited !! 0%nat = Some l
          ∧ QuoteLine.subtotal l
            = (QuoteLine.quantity l |? 0) * (QuoteLine.unit_price l |? 0)
              * (1 - (QuoteLine.discount l |? 0) / 100))
  ∧ Forall Quotes.consistent
           (Quotes.quoteLines (Quotes.handleAddProduct Sample.quote_yerba_again)).
Proof.
  split; [| split].
  - destruct (proj1 (C2_line_subtotal Sample.quote_yerba_again) Sample.yerba eq_refl)
      as (i & l & Hl & Hid & Hc & _).
    exists i, l. split; [exact Hl |]. split; [exact Hid | exact Hc].
  - destruct (proj1 (proj2 (C2_line_subtotal Sample.quote_yerba))
                0%nat (QuoteLine.Set_quantity 5) Sample.quote_yerba_edited
                eq_refl eq_refl)
      as (l & Hl & Hc & _).
    exists l. split; [exact Hl | exact Hc].
  - apply (proj2 (proj2 (C2_line_subtotal Sample.quote_yerba_again))).
    repeat constructor.
Defined.

Lemma run_products s es : Quotes.products (Quotes.run s es) = Quotes.products s.
Proof.
  unfold Quotes.run. revert s.
  induction es as [|e es IH]; intros s; simpl; [reflexivity |].
  rewrite IH. destruct e; simpl; try reflexivity.
  destruct (Quotes.addDisabled s); [reflexivity |].
  unfold Quotes.handleAddProduct. by destruct (Quotes.selectedProduct s).
Qed.

(** C3: no quote-line operation changes the product catalogue.
    [handleAddProduct], [handleRemoveProduct] and [handleUpdateLine] each
    leave the [products] state as it was, and so does every sequence of
    picker, add and remove events; in particular the stock_quantity of
    every product is the same after as before. *)
Theorem C3_catalog_untouched s :
  Quotes.products (Quotes.handleAddProduct s) = Quotes.products s
  ∧ (∀ productId,
       Quotes.products (Quotes.handleRemoveProduct productId s) = Quotes.products s)
  ∧ (∀ index u s', Quotes.handleUpdateLine index u s = Some s' →
       Quotes.products s' = Quotes.products s)
  ∧ (∀ es, Quotes.products (Quotes.run s es) = Quotes.products s
           ∧ Product.stock_quantity <$> Quotes.products (Quotes.run s es)
             = Product.stock_quantity <$> Quotes.products s).
Proof.
  split; [| split; [| split]].
  - unfold Quotes.handleAddProduct. by destruct (Quotes.selectedProduct s).
  - intros productId. reflexivity.
  - intros index u s' Hs. by apply handleUpdateLine_line in Hs as (l & _ & _ & _ & ->).
  - intros es. by rewrite run_products.
Qed.

Lemma C3_catalog_untouched_witness :
  Quotes.products Sample.quote_yerba_edited = Quotes.products Sample.quote_yerba
  ∧ Quotes.products (Quotes.handleAddProduct Sample.quote_yerba_again) = Sample.catalog.
Proof.
  split.
  - apply (proj1 (proj2 (proj2 (C3_catalog_untouched Sample.quote_yerba)))
             0%nat (QuoteLine.Set_quantity 5) Sample.quote_yerba_edited).
    reflexivity.
  - apply (proj1 (C3_catalog_untouched Sample.quote_yerba_again)).
Defined.
End QuoteLineClaims.

(* ===================================================================== *)
(** ** One line per product *)
(* ===================================================================== *)

Section OneLinePerProduct.
Implicit Types (s : Quotes.State) (l : QuoteLine.t) (sp : Product.t).
Local Open Scope float_scope.

Lemma merged_line_id l pq pd :
  QuoteLine.product_id (Quotes.merged_line l pq pd) = QuoteLine.product_id l.
Proof. reflexivity. Qed.

Lemma handleAddProduct_NoDup s :
  NoDup (Quotes.line_ids s) → NoDup (Quotes.line_ids (Quotes.handleAddProduct s)).
Proof.
  intros Hnd. unfold Quotes.line_ids in *.
  destruct (Quotes.selectedProduct s) as [sp|] eqn:Hsel.
  - rewrite (handleAddProduct_lines s sp Hsel).
    destruct (list_find _ _) as [[i line]|] eqn:Hfind.
    + apply list_find_Some in Hfind as (Hi & _ & _).
      rewrite list_fmap_insert, merged_line_id.
      rewrite list_insert_id; [exact Hnd |].
      by rewrite list_lookup_fmap, Hi.
    + apply list_find_None in Hfind. rewrite Forall_forall in Hfind.
      rewrite fmap_app. apply NoDup_app. split; [exact Hnd |]. split.
      * intros x Hx Hin. apply list_elem_of_fmap in Hx as (y & -> & Hy).
        apply (Hfind y Hy). simpl in Hin. by apply list_elem_of_singleton in Hin.
      * apply NoDup_singleton.
  - unfold Quotes.handleAddProduct. by rewrite Hsel.
Qed.

Lemma handleRemoveProduct_NoDup productId s :
  NoDup (Quotes.line_ids s) → NoDup (Quotes.line_ids (Quotes.handleRemoveProduct productId s)).
Proof.
  intros Hnd. unfold Quotes.line_ids in *. simpl.
  eapply sublist_NoDup; [exact Hnd |].
  apply fmap_sublist, sublist_filter.
Qed.

Lemma step_NoDup s e :
  NoDup (Quotes.line_ids s) → NoDup (Quotes.line_ids (Quotes.step s e)).
Proof.
  destruct e; simpl; try done.
  - destruct (Quotes.addDisabled s); [done | apply handleAddProduct_NoDup].
  - apply handleRemoveProduct_NoDup.
Qed.

Lemma run_NoDup s es :
  NoDup (Quotes.line_ids s) → NoDup (Quotes.line_ids (Quotes.run s es)).
Proof.
  unfold Quotes.run. revert s.
  induction es as [|e es IH]; intros s Hnd; simpl; [exact Hnd |].
  by apply IH, step_NoDup.
Qed.

(** With one line per product, the line of a product is the one
    [findIndex] returns. *)
Lemma list_find_unique s i l (pid : Z) :
  NoDup (Quotes.line_ids s) →
  Quotes.quoteLines s !! i = Some l →
  QuoteLine.product_id l = pid →
  list_find (λ line, QuoteLine.product_id line = pid) (Quotes.quoteLines s) = Some (i, l).
Proof.
  intros Hnd Hi Hid. apply list_find_Some. split; [exact Hi |]. split; [exact Hid |].
  intros j y Hj Hlt Hy.
  assert (j = i); [| lia].
  apply (NoDup_lookup _ _ _ pid Hnd); unfold Quotes.line_ids;
    rewrite list_lookup_fmap; [rewrite Hj | rewrite Hi]; simpl; congruence.
Qed.

(** C9: starting from an empty line list, after any
    sequence of picker, [handleAddProduct] and [handleRemoveProduct]
    events every product_id occurs in at most one line; and adding, in such
    a state, a product that already has a line (at index [i]) creates no
    second line: the list keeps its length, only line [i] changes, its
    quantity grows by the entered quantity, its discount becomes the
    entered discount (the old one is dropped) and its subtotal is
    recomputed from the new quantity and the new discount. *)
Theorem C9_one_line_per_product (s0 : Quotes.State) (es : list Quotes.Event) :
  Quotes.quoteLines s0 = [] →
  let s := Quotes.run s0 es in
  NoDup (QuoteLine.product_id <$> Quotes.quoteLines s)
  ∧ ∀ sp i l,
      Quotes.selectedProduct s = Some sp →
      Quotes.quoteLines s !! i = Some l →
      QuoteLine.product_id l = Product.id sp →
      ∃ l', Quotes.quoteLines (Quotes.handleAddProduct s) = <[i := l']> (Quotes.quoteLines s)
            ∧ length (Quotes.quoteLines (Quotes.handleAddProduct s))
              = length (Quotes.quoteLines s)
            ∧ QuoteLine.product_id l' = QuoteLine.product_id l
            ∧ QuoteLine.unit_price l' = QuoteLine.unit_price l
            ∧ QuoteLine.quantity l' = QuoteLine.quantity l + Quotes.productQuantity s
            ∧ QuoteLine.discount l' = Quotes.productDiscount s
            ∧ QuoteLine.subtotal l'
              = ((QuoteLine.quantity l + Quotes.productQuantity s) |? 0)
                * (QuoteLine.unit_price l |? 0)
                * (1 - (Quotes.productDiscount s |? 0) / 100).
Proof.
  intros Hempty s.
  assert (Hnd : NoDup (Quotes.line_ids s)).
  { apply run_NoDup. unfold Quotes.line_ids. rewrite Hempty. apply NoDup_nil_2. }
  split; [exact Hnd |].
  intros sp i l Hsel Hi Hid.
  exists (Quotes.merged_line l (Quotes.productQuantity s) (Quotes.productDiscount s)).
  assert (Hlines : Quotes.quoteLines (Quotes.handleAddProduct s)
                   = <[i := Quotes.merged_line l (Quotes.productQuantity s)
                                               (Quotes.productDiscount s)]>
                       (Quotes.quoteLines s)).
  { rewrite (handleAddProduct_lines s sp Hsel).
    by rewrite (list_find_unique s i l (Product.id sp) Hnd Hi Hid). }
  split; [exact Hlines |].
  split; [by rewrite Hlines, length_insert |].
  repeat split.
Qed.

Lemma C9_one_line_per_product_witness :
  ∃ l', Quotes.quoteLines (Quotes.handleAddProduct Sample.quote_yerba_again)
        = <[0%nat := l']> (Quotes.quoteLines Sample.quote_yerba_again)
        ∧ length (Quotes.quoteLines (Quotes.handleAddProduct Sample.quote_yerba_again)) = 1%nat
        ∧ QuoteLine.quantity l' = 3
        ∧ QuoteLine.discount l' = 10
        ∧ QuoteLine.subtotal l' = 3 * 99 * (1 - 10 / 100).
Proof.
  destruct (proj2 (C9_one_line_per_product (Quotes.newQuote Sample.catalog Sample.form)
                     (Sample.add Sample.yerba 1 6.25
                        ++ [Quotes.SelectProduct (Some Sample.yerba);
                            Quotes.EnterQuantity 2; Quotes.EnterDiscount 10])
                     eq_refl)
              Sample.yerba 0%nat
              (Quotes.new_line Sample.yerba 1 6.25)
              eq_refl eq_refl eq_refl)
    as (l' & Hlines & Hlen & _ & _ & Hq & Hd & Hsub).
  exists l'. split; [exact Hlines |]. split; [exact Hlen |].
  split; [exact Hq |]. split; [exact Hd |]. exact Hsub.
Defined.
End OneLinePerProduct.

(* ===================================================================== *)
(** ** Deposit ledger *)
(* ===================================================================== *)

Section DepositLedger.
Import Deposits.
Local Open Scope Q_scope.




(** The specification's example: 500000, apply 200000, refund 300000. *)
Example run_settle :
  run Sample.deposit (take 1 Sample.settle) = Some (mkDeposit 1 500000 300000 ACTIVE)
  ∧ run Sample.deposit Sample.settle = Some (mkDeposit 1 500000 0 REFUNDED).
Proof. split; reflexivity. Qed.



End DepositLedger.

(* ===================================================================== *)
(** ** Expiry classification *)
(* ===================================================================== *)

Section Expiry.
Import JsDate.
Local Open Scope Z_scope.
Implicit Types (tz now t expiry : Z).

Lemma msPerDay_eq : msPerDay = 86400000.
Proof. reflexivity. Qed.

(** Local midnight is [localDay] whole days after the local epoch. *)
Lemma setHours0_localDay tz t : setHours0 tz t = localDay tz t * msPerDay - tz.
Proof.
  unfold setHours0, localDay.
  pose proof (Z.div_mod (t + tz) msPerDay) as H.
  rewrite msPerDay_eq in *. lia.
Qed.

Lemma ceil_div_le a k : ceil_div a msPerDay ≤ k ↔ a ≤ k * msPerDay.
Proof.
  unfold ceil_div.
  pose proof (Z.mul_div_le (- a) msPerDay) as H1.
  pose proof (Z.mul_succ_div_gt (- a) msPerDay) as H2.
  rewrite msPerDay_eq in *. lia.
Qed.

Lemma ceil_div_ge a k : k ≤ ceil_div a msPerDay ↔ (k - 1) * msPerDay < a.
Proof.
  unfold ceil_div.
  pose proof (Z.mul_div_le (- a) msPerDay) as H1.
  pose proof (Z.mul_succ_div_gt (- a) msPerDay) as H2.
  rewrite msPerDay_eq in *. lia.
Qed.

(** Between two local midnights lies a whole number of days. *)
Lemma ceil_div_midnights tz now t :
  ceil_div (setHours0 tz t - setHours0 tz now) msPerDay = localDay tz t - localDay tz now.
Proof.
  rewrite !setHours0_localDay.
  apply Z.le_antisymm.
  - apply ceil_div_le. lia.
  - apply ceil_div_ge. rewrite msPerDay_eq. lia.
Qed.

(** An instant lies within its local day. *)
Lemma localDay_bounds tz t :
  localDay tz t * msPerDay ≤ t + tz < (localDay tz t + 1) * msPerDay.
Proof.
  unfold localDay.
  pose proof (Z.mul_div_le (t + tz) msPerDay) as H1.
  pose proof (Z.mul_succ_div_gt (t + tz) msPerDay) as H2.
  rewrite msPerDay_eq in *. lia.
Qed.

Lemma isRegimeExpired_spec tz now t :
  Customers.isRegimeExpired tz now (Parses t) = true ↔ localDay tz t < localDay tz now.
Proof.
  simpl. rewrite Z.ltb_lt, !setHours0_localDay, msPerDay_eq. lia.
Qed.

Lemma isRegimeExpiringSoon_spec tz now t :
  Customers.isRegimeExpiringSoon tz now (Parses t) = true
  ↔ 0 ≤ localDay tz t - localDay tz now ≤ 5.
Proof.
  simpl. rewrite ceil_div_midnights, andb_true_iff, Z.leb_le, Z.geb_le. lia.
Qed.

Lemma isExpiringSoon_spec now t :
  Products.isExpiringSoon now (Parses t) = true
  ↔ - msPerDay < t - now ≤ 30 * msPerDay.
Proof.
  simpl. rewrite andb_true_iff, Z.leb_le, Z.geb_le, ceil_div_le, ceil_div_ge.
  rewrite msPerDay_eq. lia.
Qed.

(** West of UTC a date-only string parses to an instant of the previous
    local day, so the customer list counts its days from the day before the
    date written. *)
Lemma date_only_local_day tz d :
  - msPerDay ≤ tz < 0 → localDay tz (d * msPerDay) = d - 1.
Proof.
  intros Htz. unfold localDay. symmetry.
  apply (Z.div_unique_pos _ _ _ (msPerDay + tz)); rewrite msPerDay_eq in *; lia.
Qed.

(** At or west of UTC, a date-only expiry that is today or earlier is not
    after today's local midnight. *)
Lemma date_only_not_after_today tz now d :
  - msPerDay < tz ≤ 0 → d ≤ localDay tz now → d * msPerDay ≤ setHours0 tz now.
Proof.
  intros Htz Hd. rewrite setHours0_localDay, msPerDay_eq in *. lia.
Qed.

(** Hence, west of UTC, the customer list reports a regime whose date-only
    expiry is today as expired already. *)
Remark isRegimeExpired_date_only tz now d :
  - msPerDay ≤ tz < 0 →
  Customers.isRegimeExpired tz now (date_only d) = true ↔ d ≤ localDay tz now.
Proof.
  intros Htz. unfold date_only.
  rewrite isRegimeExpired_spec, (date_only_local_day tz d Htz). lia.
Qed.



(** C6, as stated, fails: at noon of 10 March an expiry on 13 March is
    three days ahead and the product list reports it as expiring soon. *)
Lemma C6_product_three_days_is_expiring_soon :
  Claimed.days_until Sample.tz Sample.noon Sample.in_three_days = 3
  ∧ Products.isExpiringSoon Sample.noon (Parses Sample.in_three_days) = true
  ∧ ¬ Claimed.three_days_ahead Sample.tz Sample.noon Sample.in_three_days.
Proof.
  split; [reflexivity |]. split; [reflexivity |].
  intros H. destruct (H eq_refl) as (_ & _ & Hp).
  vm_compute in Hp. discriminate.
Qed.

(** An expiry zero to five local days ahead is "expiring soon" in both
    views and expired in neither. *)
Lemma expiring_within_five_days tz now expiry :
  0 ≤ Claimed.days_until tz now expiry ≤ 5 →
  Customers.isRegimeExpiringSoon tz now (Parses expiry) = true
  ∧ Customers.isRegimeExpired tz now (Parses expiry) = false
  ∧ Products.isExpiringSoon now (Parses expiry) = true.
Proof.
  unfold Claimed.days_until. intros H.
  split; [by apply isRegimeExpiringSoon_spec |].
  split.
  - apply not_true_iff_false. rewrite isRegimeExpired_spec. lia.
  - apply isExpiringSoon_spec.
    pose proof (localDay_bounds tz expiry) as He.
    pose proof (localDay_bounds tz now) as Hn.
    rewrite msPerDay_eq in *. lia.
Qed.

(** The same for a date-only string naming the day three days after
    today, west of UTC (where it parses into the previous local day). *)
Remark three_days_ahead_date_only tz now d :
  - msPerDay ≤ tz < 0 → d = localDay tz now + 3 →
  Customers.isRegimeExpiringSoon tz now (date_only d) = true
  ∧ Customers.isRegimeExpired tz now (date_only d) = false
  ∧ Products.isExpiringSoon now (date_only d) = true.
Proof.
  intros Htz ->. apply expiring_within_five_days. unfold Claimed.days_until.
  rewrite (date_only_local_day tz _ Htz). lia.
Qed.

(** C6 (amended): for an expiry date three days after today,
    [isRegimeExpiringSoon] returns true and [isRegimeExpired] returns false
    in the customer view, and [isExpiringSoon] returns true in the product
    view as well (three days are within its 30-day threshold). *)
Theorem C6_three_days_ahead tz now expiry :
  Claimed.days_until tz now expiry = 3 →
  Customers.isRegimeExpiringSoon tz now (Parses expiry) = true
  ∧ Customers.isRegimeExpired tz now (Parses expiry) = false
  ∧ Products.isExpiringSoon now (Parses expiry) = true.
Proof.
  intros H. apply expiring_within_five_days. lia.
Qed.

Lemma C6_three_days_ahead_witness :
  Customers.isRegimeExpiringSoon Sample.tz Sample.noon (Parses Sample.in_three_days) = true
  ∧ Customers.isRegimeExpired Sample.tz Sample.noon (Parses Sample.in_three_days) = false
  ∧ Products.isExpiringSoon Sample.noon (Parses Sample.in_three_days) = true.
Proof.
  apply (C6_three_days_ahead Sample.tz Sample.noon Sample.in_three_days). reflexivity.
Defined.
End Expiry.

(* ===================================================================== *)
(** ** Customer form: file picker and submit *)
(* ===================================================================== *)

Section CustomerForm.
Import JsDate Customers.
Local Open Scope Z_scope.
Implicit Types (s : State) (f : File) (r : Replies).

Lemma acceptable_iff f :
  acceptable f = true ↔ type f = "application/pdf" ∧ size f ≤ 10 * 1024 * 1024.
Proof.
  unfold acceptable. rewrite andb_true_iff, String.eqb_eq, Z.leb_le. reflexivity.
Qed.

(** The picker's two outcomes. *)
Lemma handleFileSelect_cases f s :
  (acceptable f = true
   ∧ handleFileSelect (Some f) s = setFileError "" (setSelectedFile (Some f) s))
  ∨ (acceptable f = false
     ∧ fileError (handleFileSelect (Some f) s) ≠ ""
     ∧ handleFileSelect (Some f) s
       = setFileError (fileError (handleFileSelect (Some f) s)) s).
Proof.
  unfold handleFileSelect, acceptable.
  destruct (String.eqb (type f) "application/pdf"); simpl.
  - rewrite Z.gtb_ltb, Z.ltb_antisym.
    destruct (size f <=? maxFileSize); simpl; [by left | right]. by repeat split.
  - right. by repeat split.
Qed.

(** [handleSubmit] uploads nothing but the selected file, and leaves the
    selection as it was or empty. *)
Lemma upload_sent r s0 customer s customerId f :
  UploadTourismPdf customerId f ∈ (upload r s0 customer s).2 → selectedFile s0 = Some f.
Proof.
  unfold upload.
  destruct (selectedFile s0) as [f0|]; [| by intros ?%elem_of_nil].
  destruct (fd_tourism_regime (formData s0)); [| by intros ?%elem_of_nil].
  destruct customer as [c|]; [| by intros ?%elem_of_nil].
  simpl. intros Hin%list_elem_of_singleton. congruence.
Qed.

Lemma handleSubmit_upload tz now r s customerId f :
  UploadTourismPdf customerId f ∈ (handleSubmit tz now r s).2 → selectedFile s = Some f.
Proof.
  unfold handleSubmit.
  destruct (validation_error tz now (formData s)); [by intros ?%elem_of_nil |].
  destruct (saved r) as [customer|]; simpl.
  - intros [Hin | [Hin | Hin]%elem_of_app]%elem_of_cons.
    + unfold save_request in Hin. by destruct (editingCustomer s).
    + by apply upload_sent in Hin.
    + simpl in Hin. by apply list_elem_of_singleton in Hin.
  - intros Hin%list_elem_of_singleton.
    unfold save_request in Hin. by destruct (editingCustomer s).
Qed.

Lemma handleSubmit_selectedFile tz now r s :
  selectedFile (handleSubmit tz now r s).1 = selectedFile s
  ∨ selectedFile (handleSubmit tz now r s).1 = None.
Proof.
  unfold handleSubmit.
  destruct (validation_error tz now (formData s)); [by left |].
  destruct (saved r); [by right | by left].
Qed.

Lemma step_checked st e : checked st → checked (step st e).
Proof.
  destruct st as [s sent]. intros [Hsel Hsent].
  destruct e as [c | | fd | isChecked | file | tz now r]; simpl.
  - split; [| exact Hsent]. destruct c; simpl; [exact Hsel | discriminate].
  - split; [discriminate | exact Hsent].
  - split; [exact Hsel | exact Hsent].
  - split; [| exact Hsent]. destruct isChecked; simpl; [exact Hsel | discriminate].
  - split; [| exact Hsent]. destruct file as [f|]; [| exact Hsel].
    destruct (handleFileSelect_cases f s) as [[Hok ->] | (_ & _ & ->)]; simpl.
    + by intros ? [= <-].
    + exact Hsel.
  - destruct (submitDisabled s); [by split |].
    destruct (handleSubmit tz now r s) as [s' reqs] eqn:Hsub. split; simpl.
    + intros f Hf.
      destruct (handleSubmit_selectedFile tz now r s) as [H | H];
        rewrite Hsub in H; simpl in H; rewrite H in Hf; [by apply Hsel | discriminate].
    + intros customerId f [Hin | Hin]%elem_of_app; [by eapply Hsent |].
      apply Hsel. apply (handleSubmit_upload tz now r s customerId). by rewrite Hsub.
Qed.

Lemma run_checked es : checked (run es).
Proof.
  unfold run.
  assert (H0 : checked (initial, [])).
  { split; simpl; [discriminate | intros ?? Hin; by apply elem_of_nil in Hin]. }
  revert H0. generalize (initial, @nil Request).
  induction es as [|e es IH]; intros st Hst; simpl; [exact Hst |].
  by apply IH, step_checked.
Qed.

(** C8: for every file chosen in the picker, [handleFileSelect] accepts it
    (the file becomes [selectedFile] and [fileError] is cleared) if and only
    if its MIME type is application/pdf and its size is at most
    10 * 1024 * 1024 bytes; when a check fails it sets a non-empty file
    error and leaves the previously selected file as it was; and no run of
    the dialog ever sends an upload request for a file that fails a check. *)
Theorem C8_file_validation s f :
  let s' := handleFileSelect (Some f) s in
  ((selectedFile s' = Some f ∧ fileError s' = "")
     ↔ (type f = "application/pdf" ∧ size f ≤ 10 * 1024 * 1024))
  ∧ (¬ (type f = "application/pdf" ∧ size f ≤ 10 * 1024 * 1024) →
       fileError s' ≠ "" ∧ selectedFile s' = selectedFile s)
  ∧ (∀ es customerId,
       UploadTourismPdf customerId f ∈ (run es).2 →
       type f = "application/pdf" ∧ size f ≤ 10 * 1024 * 1024).
Proof.
  intros s'. subst s'. rewrite <- acceptable_iff.
  split; [| split].
  - destruct (handleFileSelect_cases f s) as [[Hok ->] | (Hno & Herr & _)].
    + simpl. by split.
    + rewrite Hno. split; [intros [_ H]; contradiction | discriminate].
  - intros Hno.
    destruct (handleFileSelect_cases f s) as [[Hok _] | (_ & Herr & Heq)];
      [contradiction |].
    split; [exact Herr |]. apply (f_equal selectedFile) in Heq. exact Heq.
  - intros es customerId Hin. apply acceptable_iff.
    by apply (proj2 (run_checked es) customerId f).
Qed.

Lemma C8_file_validation_witness :
  (fileError (handleFileSelect (Some Sample.photo) Sample.hotel_dialog) ≠ ""
   ∧ selectedFile (handleFileSelect (Some Sample.photo) Sample.hotel_dialog)
     = selectedFile Sample.hotel_dialog)
  ∧ (type Sample.certificate = "application/pdf"
     ∧ size Sample.certificate ≤ 10 * 1024 * 1024).
Proof.
  split.
  - apply (proj1 (proj2 (C8_file_validation Sample.hotel_dialog Sample.photo))).
    intros [H _]. discriminate H.
  - apply (proj2 (proj2 (C8_file_validation Sample.hotel_dialog Sample.certificate))
             Sample.register_hotel 5).
    vm_compute. apply list_elem_of_here || (right; left).
Defined.

(** A failed check ends [handleSubmit] before any request. *)
Lemma handleSubmit_rejected tz now r s msg :
  validation_error tz now (formData s) = Some msg →
  handleSubmit tz now r s = (setSubmitting false (setError msg s), []).
Proof. intros Hv. unfold handleSubmit. by rewrite Hv. Qed.

Lemma validation_error_expiry tz now fd :
  fd_tourism_regime fd = true →
  (fd_tourism_regime_expiry fd = Empty
   ∨ ∃ expiry, fd_tourism_regime_expiry fd = Parses expiry ∧ expiry ≤ setHours0 tz now) →
  ∃ msg, validation_error tz now fd = Some msg ∧ msg ≠ "".
Proof.
  intros Hregime Hexp. unfold validation_error. rewrite Hregime.
  destruct Hexp as [-> | (expiry & -> & Hle)]; [by eexists |].
  apply Z.leb_le in Hle. rewrite Hle. by eexists.
Qed.

(** At or west of UTC (as in Paraguay) the date picker's value is rejected
    when its date is today or earlier. *)
Corollary handleSubmit_date_only tz now r s d :
  - msPerDay < tz ≤ 0 →
  fd_tourism_regime (formData s) = true →
  fd_tourism_regime_expiry (formData s) = date_only d →
  d ≤ localDay tz now →
  (handleSubmit tz now r s).2 = [] ∧ error (handleSubmit tz now r s).1 ≠ "".
Proof.
  intros Htz Hregime Hexp Hd.
  destruct (validation_error_expiry tz now (formData s) Hregime) as (msg & Hv & Hne).
  { right. exists (d * msPerDay). split; [exact Hexp |].
    by apply date_only_not_after_today. }
  rewrite (handleSubmit_rejected tz now r s msg Hv). by split.
Qed.


End CustomerForm.

(* ===================================================================== *)
(** ** The 401 interceptor *)
(* ===================================================================== *)

Section Interceptor.
Import Api.
Local Open Scope Z_scope.

Lemma unauthorized_iff e :
  unauthorized e = true ↔ ∃ r, response e = Some r ∧ status r = 401.
Proof.
  unfold unauthorized. destruct (response e) as [r|].
  - rewrite Z.eqb_eq. split; [by exists r |]. by intros (r' & [= <-] & H).
  - split; [discriminate |]. by intros (r' & [=] & _).
Qed.

(** C7: the response interceptor's error handler rejects with the same
    error in every case; when, and only when, the error carries a response
    with status 401 it also clears the in-memory token, removes the "token"
    entry from local storage (leaving the other entries) and sets the
    location to /login; for any other error the browser state is left
    untouched. *)
Theorem C7_unauthorized_logs_out (e : AxiosError) (b : Browser) :
  let b' := (onRejected e b).1 in
  (onRejected e b).2 = Rejected e
  ∧ ((∃ r, response e = Some r ∧ status r = 401) →
       token b' = None
       ∧ localStorage b' !! "token" = None
       ∧ (∀ key, key ≠ "token" → localStorage b' !! key = localStorage b !! key)
       ∧ href b' = "/login")
  ∧ (¬ (∃ r, response e = Some r ∧ status r = 401) → b' = b).
Proof.
  intros b'. subst b'. rewrite <- unauthorized_iff.
  unfold onRejected. split; [reflexivity |].
  destruct (unauthorized e); simpl; split.
  - intros _. split; [reflexivity |]. split; [apply lookup_delete_eq |].
    split; [| reflexivity]. intros key Hkey. by apply lookup_delete_ne.
  - intros H. by destruct H.
  - discriminate.
  - reflexivity.
Qed.

Lemma C7_unauthorized_logs_out_witness :
  (token (onRejected Sample.unauthorized_error Sample.logged_in).1 = None
   ∧ localStorage (onRejected Sample.unauthorized_error Sample.logged_in).1 !! "token" = None
   ∧ href (onRejected Sample.unauthorized_error Sample.logged_in).1 = "/login")
  ∧ (onRejected Sample.server_error Sample.logged_in).1 = Sample.logged_in.
Proof.
  split.
  - destruct (proj1 (proj2 (C7_unauthorized_logs_out Sample.unauthorized_error Sample.logged_in))
                (ex_intro _ (mkResponse 401 "") (conj eq_refl eq_refl)))
      as (H1 & H2 & _ & H4).
    split; [exact H1 |]. split; [exact H2 | exact H4].
  - apply (proj2 (proj2 (C7_unauthorized_logs_out Sample.server_error Sample.logged_in))).
    intros (r & [= <-] & H). discriminate H.
Defined.
End Interceptor.

(* ===================================================================== *)
(** ** Regular expressions: the matcher decides the match relation *)
(* ===================================================================== *)

Section RegexFacts.
Import Regex.

Lemma void_inv s : ¬ matches Void s.
Proof. inversion 1. Qed.

Lemma eps_inv s : matches Eps s → s = [].
Proof. by inversion 1. Qed.

Lemma class_inv p s : matches (Class p) s → ∃ c, s = [c] ∧ p c = true.
Proof. inversion 1; subst; eauto. Qed.

Lemma cat_inv r1 r2 s :
  matches (Cat r1 r2) s → ∃ s1 s2, s = s1 ++ s2 ∧ matches r1 s1 ∧ matches r2 s2.
Proof. inversion 1; subst; eauto. Qed.

Lemma alt_inv r1 r2 s : matches (Alt r1 r2) s → matches r1 s ∨ matches r2 s.
Proof. inversion 1; subst; eauto. Qed.

Lemma nullable_matches r : nullable r = true ↔ matches r [].
Proof.
  induction r as [| | p | r1 IH1 r2 IH2 | r1 IH1 r2 IH2 | r IH]; simpl.
  - split; [discriminate | by intros ?%void_inv].
  - split; [constructor | done].
  - split; [discriminate | by intros (c & [=] & _)%class_inv].
  - rewrite andb_true_iff, IH1, IH2. split.
    + intros [H1 H2]. by apply (m_cat _ _ [] []).
    + intros (s1 & s2 & E & H1 & H2)%cat_inv.
      symmetry in E. apply app_eq_nil in E as [-> ->]. done.
  - rewrite orb_true_iff, IH1, IH2. split.
    + intros [H | H]; [by apply m_alt_l | by apply m_alt_r].
    + apply alt_inv.
  - split; [constructor | done].
Qed.

Lemma star_cons_inv r c s :
  matches (Star r) (c :: s) →
  ∃ s1 s2, s = s1 ++ s2 ∧ matches r (c :: s1) ∧ matches (Star r) s2.
Proof.
  intros H. remember (Star r) as r' eqn:Er. remember (c :: s) as cs eqn:Es.
  revert c s Es.
  induction H as [| | | | | |r0 s1 s2 H1 _ H2 IH2]; intros c0 s0 Es; try discriminate.
  injection Er as ->.
  destruct s1 as [|c1 s1]; simpl in Es.
  - by apply IH2.
  - injection Es as -> <-. by exists s1, s2.
Qed.

Lemma deriv_matches r : ∀ c s, matches (deriv c r) s ↔ matches r (c :: s).
Proof.
  induction r as [| | p | r1 IH1 r2 IH2 | r1 IH1 r2 IH2 | r IH]; intros c s; simpl.
  - split; by intros ?%void_inv.
  - split; [by intros ?%void_inv | by intros [=]%eps_inv].
  - destruct (p c) eqn:Hp; split.
    + intros ->%eps_inv. by constructor.
    + intros (c' & [= -> ->] & _)%class_inv. constructor.
    + by intros ?%void_inv.
    + intros (c' & [= -> ->] & H)%class_inv. congruence.
  - assert (Hcat : matches (Cat (deriv c r1) r2) s → matches (Cat r1 r2) (c :: s)).
    { intros (s1 & s2 & -> & H1 & H2)%cat_inv.
      apply IH1 in H1. by apply (m_cat _ _ (c :: s1) s2). }
    assert (Hinv : matches (Cat r1 r2) (c :: s) →
                   matches (Cat (deriv c r1) r2) s ∨ (matches r1 [] ∧ matches r2 (c :: s))).
    { intros (s1 & s2 & E & H1 & H2)%cat_inv.
      destruct s1 as [|c1 s1]; simpl in E.
      - right. subst s2. by split.
      - injection E as -> ->. left. apply m_cat; [by apply IH1 | done]. }
    destruct (nullable r1) eqn:Hn; split.
    + intros [H | H]%alt_inv; [by apply Hcat |].
      apply (m_cat _ _ [] (c :: s)); [by apply nullable_matches | by apply IH2].
    + intros [H | [_ H]]%Hinv; [by apply m_alt_l | apply m_alt_r; by apply IH2].
    + apply Hcat.
    + intros [H | [H _]]%Hinv; [done |].
      apply nullable_matches in H. congruence.
  - split.
    + intros [H | H]%alt_inv; [apply m_alt_l; by apply IH1 | apply m_alt_r; by apply IH2].
    + intros [H | H]%alt_inv; [apply m_alt_l; by apply IH1 | apply m_alt_r; by apply IH2].
  - split.
    + intros (s1 & s2 & -> & H1 & H2)%cat_inv.
      apply IH in H1. by apply (m_star_cons _ (c :: s1) s2).
    + intros (s1 & s2 & -> & H1 & H2)%star_cons_inv.
      apply m_cat; [by apply IH | done].
Qed.

Lemma test_matches r s : test r s = true ↔ matches r s.
Proof.
  revert r. induction s as [|c s IH]; intros r; simpl.
  - apply nullable_matches.
  - rewrite IH. apply deriv_matches.
Qed.

(** A run of characters of one class. *)
Lemma star_class p s : matches (Star (Class p)) s ↔ Forall (λ c, p c = true) s.
Proof.
  split.
  - induction s as [|c s IH]; [constructor |].
    intros (s1 & s2 & -> & (c' & E & Hc)%class_inv & H2)%star_cons_inv.
    injection E as -> ->. constructor; [done | by apply IH].
  - induction 1 as [|c s Hc _ IH]; [constructor |].
    apply (m_star_cons _ [c] s); [by constructor | done].
Qed.

Lemma plus_class p s :
  matches (Plus (Class p)) s ↔ s ≠ [] ∧ Forall (λ c, p c = true) s.
Proof.
  unfold Plus. split.
  - intros (s1 & s2 & -> & (c & -> & Hc)%class_inv & H2%star_class)%cat_inv.
    split; [done | by constructor].
  - intros [Hne H]. destruct s as [|c s]; [done |].
    apply Forall_cons in H as [Hc H].
    apply (m_cat _ _ [c] s); [by constructor | by apply star_class].
Qed.

Lemma repeat_class p n s :
  matches (Repeat n (Class p)) s ↔ length s = n ∧ Forall (λ c, p c = true) s.
Proof.
  revert s. induction n as [|n IH]; intros s; simpl.
  - split.
    + intros ->%eps_inv. by split.
    + intros [Hl _]. destruct s; [constructor | done].
  - split.
    + intros (s1 & s2 & -> & (c & -> & Hc)%class_inv & [Hl H]%IH)%cat_inv.
      simpl. split; [by rewrite Hl | by constructor].
    + intros [Hl H]. destruct s as [|c s]; [done |].
      apply Forall_cons in H as [Hc H]. injection Hl as Hl.
      apply (m_cat _ _ [c] s); [by constructor | by apply IH].
Qed.

End RegexFacts.

(* ===================================================================== *)
(** ** The validators of the customer form and the company settings *)
(* ===================================================================== *)

Section ValidatorFacts.
Import Validators.

Lemma eqb_class k s : Regex.matches (Regex.Class (N.eqb k)) s ↔ s = [k].
Proof.
  split.
  - intros (c & -> & ->%N.eqb_eq)%class_inv. done.
  - intros ->. constructor. apply N.eqb_refl.
Qed.

Lemma emailRegex_matches email :
  Regex.matches emailRegex email ↔
  ∃ a b c, email = a ++ at_sign :: b ++ dot :: c
           ∧ a ≠ [] ∧ b ≠ [] ∧ c ≠ []
           ∧ Forall (λ x, plain x = true) (a ++ b ++ c).
Proof.
  unfold emailRegex. split.
  - intros (a & r1 & -> & [Ha Fa]%plus_class
            & (x & r2 & -> & ->%eqb_class
               & (b & r3 & -> & [Hb Fb]%plus_class
                  & (y & c & -> & ->%eqb_class & [Hc Fc]%plus_class)%cat_inv)%cat_inv)%cat_inv)%cat_inv.
    exists a, b, c. repeat (split; [done |]). by rewrite !Forall_app.
  - intros (a & b & c & -> & Ha & Hb & Hc & F).
    rewrite !Forall_app in F. destruct F as (Fa & Fb & Fc).
    apply Regex.m_cat; [by apply plus_class |].
    apply (Regex.m_cat _ _ [at_sign]); [by apply eqb_class |].
    apply Regex.m_cat; [by apply plus_class |].
    apply (Regex.m_cat _ _ [dot]); [by apply eqb_class | by apply plus_class].
Qed.

Lemma rucRegex_matches ruc :
  Regex.matches rucRegex ruc ↔
  ∃ ds d, ruc = ds ++ [hyphen; d] ∧ length ds = 8
          ∧ Forall (λ x, digit x = true) ds ∧ digit d = true.
Proof.
  unfold rucRegex. split.
  - intros (ds & r1 & -> & [Hl Fd]%repeat_class
            & (x & r2 & -> & ->%eqb_class & [Hl' Fd']%repeat_class)%cat_inv)%cat_inv.
    destruct r2 as [|d [|]]; try done.
    exists ds, d. by apply (Forall_singleton (λ c, digit c = true)) in Fd'.
  - intros (ds & d & -> & Hl & Fd & Hd).
    apply Regex.m_cat; [by apply repeat_class |].
    apply (Regex.m_cat _ _ [hyphen] [d]); [by apply eqb_class |].
    apply repeat_class. split; [done | by apply Forall_singleton].
Qed.

Lemma digit_kept c : digit c = true → negb ((c =? hyphen)%N || space c) = true.
Proof.
  unfold digit, space, hyphen. intros [H1%N.leb_le H2%N.leb_le]%andb_true_iff.
  apply negb_true_iff.
  repeat match goal with
         | |- context [(?a =? ?b)%N] => destruct (N.eqb_spec a b); [lia |]
         | |- context [(?a <=? ?b)%N] => destruct (N.leb_spec a b); try lia
         end; done.
Qed.

Lemma clean_digits x :
  Forall (λ c, digit c = true) (clean x) ↔
  Forall (λ c, digit c = true ∨ c = hyphen ∨ space c = true) x.
Proof.
  unfold clean, jsstring. rewrite !Forall_forall. split.
  - intros H c Hc.
    destruct ((c =? hyphen)%N || space c) eqn:E.
    + apply orb_true_iff in E as [->%N.eqb_eq | E]; auto.
    + left. apply H. apply list_elem_of_filter. by rewrite E.
  - intros H c [Hk Hc]%list_elem_of_filter.
    destruct (H c Hc) as [Hd | [-> | Hs]]; [done | |].
    + by rewrite N.eqb_refl in Hk.
    + by rewrite Hs, orb_true_r in Hk.
Qed.

Lemma clean_length x :
  Forall (λ c, digit c = true) (clean x) →
  clean x = filter (λ c, digit c = true) x.
Proof.
  unfold clean, jsstring. induction x as [|c x IH]; [done |].
  rewrite !filter_cons. destruct (decide (negb _ = true)) as [Hk | Hk].
  - intros [Hd F]%Forall_cons. rewrite decide_True by done. f_equal. by apply IH.
  - intros F. rewrite decide_False; [by apply IH |].
    intros Hd. by apply Hk, digit_kept.
Qed.

Lemma digitsRegex_test x :
  Regex.test digitsRegex x = true ↔ x ≠ [] ∧ Forall (λ c, digit c = true) x.
Proof. rewrite test_matches. apply plus_class. Qed.

(** X1: [validateEmail] accepts exactly the empty text and the texts of the
    shape [a@b.c] where [a], [b] and [c] are non-empty and hold neither
    white space nor [@]; it leaves an empty [emailError] exactly when it
    accepts. *)
Theorem validateEmail_accepts (email : jsstring) (s : Customers.State) :
  ((validateEmail email s).2 = true ↔
   email = [] ∨
   ∃ a b c, email = a ++ at_sign :: b ++ dot :: c
            ∧ a ≠ [] ∧ b ≠ [] ∧ c ≠ []
            ∧ Forall (λ x, plain x = true) (a ++ b ++ c))
  ∧ (Customers.emailError (validateEmail email s).1 = "" ↔
     (validateEmail email s).2 = true).
Proof.
  destruct email as [|c0 email]; [by split; [split; [left |] |] |].
  lazy beta iota delta [validateEmail].
  destruct (Regex.test emailRegex (c0 :: email)) eqn:E; simpl.
  - apply test_matches, emailRegex_matches in E. by split; [split; [right |] |].
  - split; [split; [done |] | done].
    intros [? | H]; [done |].
    apply emailRegex_matches, test_matches in H. congruence.
Qed.

(** X2: [validateRuc] of the customer form accepts exactly the empty text
    and eight digits, a hyphen and one digit; it leaves an empty
    [rucError] exactly when it accepts. *)
Theorem validateRuc_accepts (ruc : jsstring) (s : Customers.State) :
  ((validateRuc ruc s).2 = true ↔
   ruc = [] ∨
   ∃ ds d, ruc = ds ++ [hyphen; d] ∧ length ds = 8
           ∧ Forall (λ x, digit x = true) ds ∧ digit d = true)
  ∧ (Customers.rucError (validateRuc ruc s).1 = "" ↔ (validateRuc ruc s).2 = true).
Proof.
  destruct ruc as [|c0 ruc]; [by split; [split; [left |] |] |].
  lazy beta iota delta [validateRuc].
  destruct (Regex.test rucRegex (c0 :: ruc)) eqn:E; simpl.
  - apply test_matches, rucRegex_matches in E. by split; [split; [right |] |].
  - split; [split; [done |] | done].
    intros [? | H]; [done |].
    apply rucRegex_matches, test_matches in H. congruence.
Qed.

Lemma validateRUC_ok ruc :
  validateRUC ruc = "" ↔
  (6 ≤ length (clean ruc) ≤ 10)%nat ∧ Forall (λ c, digit c = true) (clean ruc).
Proof.
  unfold validateRUC.
  destruct (length (clean ruc) <? 6)%nat eqn:E1; simpl.
  { apply Nat.ltb_lt in E1. split; [done | lia]. }
  apply Nat.ltb_ge in E1.
  destruct (10 <? length (clean ruc))%nat eqn:E2; simpl.
  { apply Nat.ltb_lt in E2. split; [done | lia]. }
  apply Nat.ltb_ge in E2.
  destruct (Regex.test digitsRegex (clean ruc)) eqn:E3; simpl.
  - apply digitsRegex_test in E3 as [_ F]. split; [intros _; split; [lia | done] | done].
  - split; [done |]. intros [_ F].
    assert (Regex.test digitsRegex (clean ruc) = true); [| congruence].
    apply digitsRegex_test. split; [| done]. intros E. rewrite E in E1. simpl in E1. lia.
Qed.

(** X3: [validateRUC] of the company settings returns the empty message
    exactly when the text holds only digits, hyphens and white space and
    the number of its digits is between 6 and 10. *)
Theorem validateRUC_accepts (ruc : jsstring) :
  validateRUC ruc = "" ↔
  Forall (λ c, digit c = true ∨ c = hyphen ∨ space c = true) ruc
  ∧ (6 ≤ length (filter (λ c, digit c = true) ruc) ≤ 10)%nat.
Proof.
  rewrite validateRUC_ok, <- clean_digits. split.
  - intros [Hl F]. split; [done |]. by rewrite <- clean_length.
  - intros [F Hl]. split; [| done]. by rewrite clean_length.
Qed.

(** X4: [validateTimbrado] returns the empty message exactly when the text
    holds only digits, hyphens and white space and has at least 8
    digits. *)
Theorem validateTimbrado_accepts (timbrado : jsstring) :
  validateTimbrado timbrado = "" ↔
  Forall (λ c, digit c = true ∨ c = hyphen ∨ space c = true) timbrado
  ∧ (8 ≤ length (filter (λ c, digit c = true) timbrado))%nat.
Proof.
  rewrite <- clean_digits. unfold validateTimbrado.
  destruct (length (clean timbrado) <? 8)%nat eqn:E1; simpl.
  { apply Nat.ltb_lt in E1. split; [done |].
    intros [F Hl]. rewrite <- clean_length in Hl by done. lia. }
  apply Nat.ltb_ge in E1.
  destruct (Regex.test digitsRegex (clean timbrado)) eqn:E3; simpl.
  - apply digitsRegex_test in E3 as [_ F].
    split; [intros _; split; [done |] | done]. by rewrite <- clean_length.
  - split; [done |]. intros [F _].
    assert (Regex.test digitsRegex (clean timbrado) = true); [| congruence].
    apply digitsRegex_test. split; [| done]. intros E. rewrite E in E1. simpl in E1. lia.
Qed.

(** X5: a tax id that the customer form accepts as a RUC is, when not
    empty, also accepted by the company settings. *)
Theorem customer_ruc_is_company_ruc (ruc : jsstring) (s : Customers.State) :
  ruc ≠ [] → (validateRuc ruc s).2 = true → validateRUC ruc = "".
Proof.
  intros Hne H.
  destruct ruc as [|c0 ruc]; [done |].
  lazy beta iota delta [validateRuc] in H.
  destruct (Regex.test rucRegex (c0 :: ruc)) eqn:E; [| done].
  apply test_matches, rucRegex_matches in E as (ds & d & -> & Hl & F & Hd).
  apply validateRUC_accepts. split.
  - apply Forall_app. split; [by eapply Forall_impl; [exact F | auto] |].
    constructor; [auto |]. constructor; [auto | constructor].
  - unfold jsstring. rewrite filter_app, length_app.
    assert (filter (λ c, digit c = true) ds = ds) as ->.
    { clear Hl. induction F as [|x ds Hx F IH]; [done |].
      by rewrite filter_cons, decide_True, IH. }
    rewrite filter_cons, decide_False by done.
    rewrite filter_cons, decide_True by done. simpl. lia.
Qed.

Lemma customer_ruc_is_company_ruc_witness :
  validateRUC (units "80012345-6") = "".
Proof.
  apply (customer_ruc_is_company_ruc (units "80012345-6") Customers.initial);
    [done | reflexivity].
Defined.

Lemma handleSubmit_requests_frame tz now r s s' :
  Customers.formData s' = Customers.formData s →
  Customers.editingCustomer s' = Customers.editingCustomer s →
  Customers.selectedFile s' = Customers.selectedFile s →
  (Customers.handleSubmit tz now r s').2 = (Customers.handleSubmit tz now r s).2.
Proof.
  intros Hf He Hs. unfold Customers.handleSubmit. rewrite Hf.
  destruct (Customers.validation_error _ _ _); [done |].
  unfold Customers.save_request. rewrite He, Hf.
  destruct (Customers.saved r) as [customer |]; [| done]. simpl.
  unfold Customers.upload. rewrite Hs, Hf, He.
  destruct (Customers.selectedFile s); [| done].
  destruct (Customers.fd_tourism_regime _); [| done].
  by destruct customer.
Qed.

(** X6: the two inline validators of the customer form only set a
    message: whatever they are given, the submit button is as enabled as
    before and [handleSubmit] sends the same requests. *)
Theorem validators_do_not_gate_submit (email ruc : jsstring) (s : Customers.State)
    (tz now : Z) (r : Customers.Replies) :
  Customers.submitDisabled (validateRuc ruc (validateEmail email s).1).1
  = Customers.submitDisabled s
  ∧ (Customers.handleSubmit tz now r (validateRuc ruc (validateEmail email s).1).1).2
    = (Customers.handleSubmit tz now r s).2.
Proof.
  assert (E : ∃ e e', (validateRuc ruc (validateEmail email s).1).1
                      = Customers.setRucError e' (Customers.setEmailError e s)).
  { unfold validateEmail, validateRuc.
    destruct email, ruc; repeat case_match; simpl; eauto. }
  destruct E as (e & e' & ->). split; [done |].
  by apply handleSubmit_requests_frame.
Qed.

End ValidatorFacts.

(* ===================================================================== *)
(** ** Quote dialog: rows edited and removed *)
(* ===================================================================== *)

Section QuoteRowFacts.

Lemma edit_recalculates field value :
  QuoteLine.recalculates (QuoteRows.edit field value) = true.
Proof. by destruct field. Qed.

Lemma updated_line_edit l field value :
  QuoteLine.product_id (Quotes.updated_line l (QuoteRows.edit field value))
  = QuoteLine.product_id l
  ∧ QuoteLine.product_name (Quotes.updated_line l (QuoteRows.edit field value))
    = QuoteLine.product_name l.
Proof. by destruct field. Qed.

Lemma handleUpdateLine_edit_ids index field value s s' :
  Quotes.handleUpdateLine index (QuoteRows.edit field value) s = Some s' →
  Quotes.line_ids s' = Quotes.line_ids s.
Proof.
  intros (l & Hl & E & _)%handleUpdateLine_line. unfold Quotes.line_ids.
  rewrite E, list_fmap_insert, (proj1 (updated_line_edit l field value)).
  apply list_insert_id. by rewrite list_lookup_fmap, Hl.
Qed.

Lemma handleUpdateLine_frame index u s s' :
  Quotes.handleUpdateLine index u s = Some s' →
  Quotes.formData s' = Quotes.formData s
  ∧ Quotes.editingQuote s' = Quotes.editingQuote s
  ∧ Quotes.selectedProduct s' = Quotes.selectedProduct s
  ∧ Quotes.productQuantity s' = Quotes.productQuantity s
  ∧ Quotes.productDiscount s' = Quotes.productDiscount s.
Proof.
  unfold Quotes.handleUpdateLine. destruct (_ !! _); [| done]. by intros [= <-].
Qed.

Lemma step_consistent s e :
  Forall Quotes.consistent (Quotes.quoteLines s) →
  Forall Quotes.consistent (Quotes.quoteLines (Quotes.step s e)).
Proof.
  destruct e; simpl; try done.
  - destruct (Quotes.addDisabled s); [done | apply handleAddProduct_consistent].
  - apply handleRemoveProduct_consistent.
Qed.

Lemma step_form s e :
  Quotes.formData (Quotes.step s e) = Quotes.formData s
  ∧ Quotes.editingQuote (Quotes.step s e) = Quotes.editingQuote s.
Proof.
  destruct e; simpl; try done.
  destruct (Quotes.addDisabled s); [done |].
  unfold Quotes.handleAddProduct. by destruct (Quotes.selectedProduct s).
Qed.

Lemma rows_step_kept s e s' : QuoteRows.step s e = Some s' → QuoteRows.kept s s'.
Proof.
  destruct e as [e | index field value | index]; simpl.
  - intros [= <-]. split; [apply step_NoDup |]. split; [apply step_consistent |].
    split; [apply (run_products s [e]) |]. apply step_form.
  - intros H. split; [by rewrite (handleUpdateLine_edit_ids _ _ _ _ _ H) |].
    split; [eapply handleUpdateLine_consistent; [apply edit_recalculates | exact H] |].
    split; [by apply handleUpdateLine_line in H as (? & _ & _ & _ & ?) |].
    by apply handleUpdateLine_frame in H as (? & ? & _).
  - destruct (Quotes.quoteLines s !! index) as [line |]; [| done]. simpl.
    intros [= <-]. split; [apply handleRemoveProduct_NoDup |].
    split; [apply handleRemoveProduct_consistent | done].
Qed.

Lemma rows_run_kept es : ∀ s0 s, QuoteRows.run s0 es = Some s → QuoteRows.kept s0 s.
Proof.
  induction es as [|e es IH]; intros s0 s; simpl.
  - intros [= <-]. by repeat split.
  - destruct (QuoteRows.step s0 e) as [s1 |] eqn:E; [| done]. simpl. intros H.
    apply rows_step_kept in E as (N1 & C1 & P1 & F1 & Q1).
    apply IH in H as (N2 & C2 & P2 & F2 & Q2).
    split; [auto |]. split; [auto |]. split; [congruence |]. split; congruence.
Qed.

Lemma filter_others_delete {A : Type} (f : A → Z) (ls : list A) :
  ∀ i l, NoDup (f <$> ls) → ls !! i = Some l →
         filter (λ x, f x ≠ f l) ls = delete i ls.
Proof.
  induction ls as [|x ls IH]; intros i l Hnd Hi; [done |].
  rewrite fmap_cons in Hnd. apply NoDup_cons in Hnd as [Hx Hnd].
  rewrite filter_cons. destruct i as [|i]; simpl in *.
  - injection Hi as ->. rewrite decide_False by auto.
    clear IH. induction ls as [|y ls IH]; [done |].
    rewrite fmap_cons in Hx, Hnd. apply not_elem_of_cons in Hx as [Hy Hx].
    apply NoDup_cons in Hnd as [_ Hnd].
    rewrite filter_cons, decide_True by auto. f_equal. by apply IH.
  - rewrite decide_True.
    + f_equal. by apply IH.
    + intros E. apply Hx. rewrite E. apply list_elem_of_fmap.
      exists l. split; [done |]. by eapply list_elem_of_lookup_2.
Qed.

(** X7: whatever is done in the product section of the dialog (panel, row
    inputs, row removal), the lines keep distinct product ids and
    subtotals that agree with their fields if they had them at the start,
    and the catalog, the form and the quote being edited stay as they
    were. *)
Theorem dialog_rows_invariant (s0 s : Quotes.State) (es : list QuoteRows.Event) :
  QuoteRows.run s0 es = Some s →
  (NoDup (Quotes.line_ids s0) → NoDup (Quotes.line_ids s))
  ∧ (Forall Quotes.consistent (Quotes.quoteLines s0) →
     Forall Quotes.consistent (Quotes.quoteLines s))
  ∧ Quotes.products s = Quotes.products s0
  ∧ Quotes.formData s = Quotes.formData s0
  ∧ Quotes.editingQuote s = Quotes.editingQuote s0.
Proof. apply rows_run_kept. Qed.

Lemma dialog_rows_invariant_witness :
  QuoteRows.run Scenario.blank Scenario.session = Some Scenario.quoted
  ∧ NoDup (Quotes.line_ids Scenario.quoted)
  ∧ Quotes.products Scenario.quoted = Sample.catalog.
Proof.
  assert (H : QuoteRows.run Scenario.blank Scenario.session = Some Scenario.quoted)
    by reflexivity.
  split; [exact H |].
  destruct (dialog_rows_invariant _ _ _ H) as (N & _ & P & _).
  split; [apply N; constructor | exact P].
Defined.

(** X8: in a dialog whose lines have distinct product ids, the remove
    button of a row removes that row and no other. *)
Theorem remove_button_removes_its_row (s0 s : Quotes.State) (es : list QuoteRows.Event)
    (index : nat) :
  NoDup (Quotes.line_ids s0) →
  QuoteRows.run s0 es = Some s →
  (index < length (Quotes.quoteLines s))%nat →
  QuoteRows.step s (QuoteRows.RemoveRow index)
  = Some (Quotes.with_lines s (delete index (Quotes.quoteLines s))).
Proof.
  intros Hnd Hrun Hi. apply rows_run_kept in Hrun as (N & _). specialize (N Hnd).
  apply lookup_lt_is_Some_2 in Hi as [l Hl]. simpl. rewrite Hl. simpl.
  unfold Quotes.handleRemoveProduct. f_equal. f_equal.
  by apply filter_others_delete.
Qed.

Lemma remove_button_removes_its_row_witness :
  QuoteRows.step Scenario.quoted (QuoteRows.RemoveRow 0)
  = Some (Quotes.with_lines Scenario.quoted (delete 0%nat (Quotes.quoteLines Scenario.quoted))).
Proof.
  apply (remove_button_removes_its_row Scenario.blank Scenario.quoted Scenario.session 0).
  - constructor.
  - reflexivity.
  - vm_compute. lia.
Defined.

(** X9: adding a product the quote does not hold yet and then removing it
    gives back the lines the quote had. *)
Theorem add_then_remove (s : Quotes.State) (sp : Product.t) :
  Quotes.selectedProduct s = Some sp →
  Product.id sp ∉ Quotes.line_ids s →
  Quotes.quoteLines (Quotes.handleRemoveProduct (Product.id sp) (Quotes.handleAddProduct s))
  = Quotes.quoteLines s.
Proof.
  intros Hsel Hid. simpl. rewrite (handleAddProduct_lines s sp Hsel).
  destruct (list_find _ _) as [[i line] |] eqn:Hfind.
  - apply list_find_Some in Hfind as (Hi & Hp & _). destruct Hid.
    apply list_elem_of_fmap. exists line. split; [done |].
    by eapply list_elem_of_lookup_2.
  - rewrite filter_app, filter_cons, decide_False, filter_nil, app_nil_r by (simpl; auto).
    clear Hfind. unfold Quotes.line_ids in Hid.
    induction (Quotes.quoteLines s) as [|x ls IH]; [done |].
    rewrite fmap_cons in Hid. apply not_elem_of_cons in Hid as [Hx Hid].
    rewrite filter_cons, decide_True by auto. f_equal. by apply IH.
Qed.

Lemma add_then_remove_witness :
  Quotes.quoteLines
    (Quotes.handleRemoveProduct (Product.id Sample.yerba)
       (Quotes.handleAddProduct Scenario.cable_then_yerba))
  = Quotes.quoteLines Scenario.cable_then_yerba.
Proof.
  apply (add_then_remove Scenario.cable_then_yerba Sample.yerba); [reflexivity |].
  vm_compute. intros H. apply list_elem_of_singleton in H. discriminate H.
Defined.

(** X10: a row input rewrites the row it belongs to and nothing else: it
    acts exactly on the indices of rendered rows, keeps the number of rows,
    every other row, each row's product id and name, and the panel. *)
Theorem row_edit_frame (s : Quotes.State) (index : nat) (field : QuoteRows.Field)
    (value : float) :
  (is_Some (QuoteRows.step s (QuoteRows.UpdateLine index field value))
   ↔ (index < length (Quotes.quoteLines s))%nat)
  ∧ ∀ s', QuoteRows.step s (QuoteRows.UpdateLine index field value) = Some s' →
      length (Quotes.quoteLines s') = length (Quotes.quoteLines s)
      ∧ (∀ j, j ≠ index → Quotes.quoteLines s' !! j = Quotes.quoteLines s !! j)
      ∧ Quotes.line_ids s' = Quotes.line_ids s
      ∧ QuoteLine.product_name <$> Quotes.quoteLines s'
        = QuoteLine.product_name <$> Quotes.quoteLines s
      ∧ Quotes.selectedProduct s' = Quotes.selectedProduct s
      ∧ Quotes.productQuantity s' = Quotes.productQuantity s
      ∧ Quotes.productDiscount s' = Quotes.productDiscount s.
Proof.
  simpl. split.
  - unfold Quotes.handleUpdateLine. rewrite <- lookup_lt_is_Some.
    destruct (Quotes.quoteLines s !! index); split; intros [? ?]; by eauto.
  - intros s' H.
    pose proof (handleUpdateLine_edit_ids _ _ _ _ _ H) as Hids.
    pose proof (handleUpdateLine_frame _ _ _ _ H) as (_ & _ & Hs & Hq & Hd).
    apply handleUpdateLine_line in H as (l & Hl & E & _).
    split; [by rewrite E, length_insert |].
    split; [intros j Hj; by rewrite E, list_lookup_insert_ne |].
    split; [done |]. split; [| done].
    rewrite E, list_fmap_insert, (proj2 (updated_line_edit l field value)).
    apply list_insert_id. by rewrite list_lookup_fmap, Hl.
Qed.

(** X11: when the save button of the dialog is enabled, the request it
    sends carries at least one line, no two lines for the same product, the
    customer chosen in the form, and goes to the quote being edited or, for
    a new quote, creates one. *)
Theorem saved_quote_lines (s0 s : Quotes.State) (es : list QuoteRows.Event) :
  NoDup (Quotes.line_ids s0) →
  QuoteRows.run s0 es = Some s →
  QuoteDialog.saveDisabled s = false →
  ∃ data,
    Quotes.handleSubmit s
    = match Quotes.editingQuote s0 with
      | Some id => Quotes.UpdateQuote id data
      | None => Quotes.CreateQuote data
      end
    ∧ Quotes.qd_lines data ≠ []
    ∧ NoDup (Quotes.ld_product_id <$> Quotes.qd_lines data)
    ∧ Quotes.qd_form data = Quotes.formData s0
    ∧ Quotes.customer_id (Quotes.qd_form data) ≠ 0%Z.
Proof.
  intros Hnd Hrun Hen. apply rows_run_kept in Hrun as (N & _ & _ & F & Q).
  specialize (N Hnd). unfold QuoteDialog.saveDisabled in Hen.
  apply orb_false_iff in Hen as [Hc%Z.eqb_neq Hl%Nat.eqb_neq].
  exists (Quotes.request_data (Quotes.handleSubmit s)).
  unfold Quotes.handleSubmit. rewrite Q.
  split; [by destruct (Quotes.editingQuote s0) |].
  assert (E : ∀ r, Quotes.request_data
                     match Quotes.editingQuote s0 with
                     | Some id => Quotes.UpdateQuote id r
                     | None => Quotes.CreateQuote r
                     end = r) by (intros r; by destruct (Quotes.editingQuote s0)).
  rewrite E. simpl. split.
  - destruct (Quotes.quoteLines s); [done | discriminate].
  - split; [| by rewrite <- F].
    rewrite <- list_fmap_compose. exact N.
Qed.

Lemma saved_quote_lines_witness :
  ∃ data, Quotes.handleSubmit Scenario.quoted = Quotes.CreateQuote data
          ∧ Quotes.qd_lines data ≠ []
          ∧ NoDup (Quotes.ld_product_id <$> Quotes.qd_lines data)
          ∧ Quotes.qd_form data = Sample.form
          ∧ Quotes.customer_id (Quotes.qd_form data) ≠ 0%Z.
Proof.
  apply (saved_quote_lines Scenario.blank Scenario.quoted Scenario.session).
  - constructor.
  - reflexivity.
  - reflexivity.
Defined.

End QuoteRowFacts.

(* ===================================================================== *)
(** ** Session: the client's token and the stored one *)
(* ===================================================================== *)

Section Session.
Import Auth.

Lemma onRejected_in_sync e b : in_sync b → in_sync (Api.onRejected e b).1.
Proof.
  unfold in_sync, Api.onRejected. destruct (Api.unauthorized e); [| done].
  intros _. simpl. by rewrite lookup_delete_eq.
Qed.

Lemma request_in_sync {A : Type} config (reply : Reply A) b :
  in_sync b → in_sync (request config reply b).1.
Proof. destruct reply; simpl; [done | apply onRejected_in_sync]. Qed.

Lemma signed_out_in_sync b : in_sync (Api.setToken None (removeItem "token" b)).
Proof. unfold in_sync. simpl. by rewrite lookup_delete_eq. Qed.

Lemma signed_in_in_sync token b :
  token ≠ "" → in_sync (Api.setToken (Some token) (setItem "token" token b)).
Proof.
  intros H. unfold in_sync. simpl. rewrite lookup_insert_eq.
  by apply String.eqb_neq in H as ->.
Qed.

Lemma fetchUserProfile_in_sync me s :
  in_sync (browser s) → in_sync (browser (fetchUserProfile me s).1).
Proof.
  intros H. unfold fetchUserProfile. destruct me; simpl; [done |].
  apply signed_out_in_sync.
Qed.

Lemma mount_in_sync me storage path : in_sync (browser (mount me (loaded storage path)).1).
Proof.
  unfold mount. simpl. destruct (storage !! "token") as [token |] eqn:E.
  - destruct (String.eqb token "") eqn:Ee.
    + unfold in_sync. simpl. by rewrite E, Ee.
    + apply fetchUserProfile_in_sync. unfold in_sync. simpl. by rewrite E, Ee.
  - unfold in_sync. simpl. by rewrite E.
Qed.

Lemma login_in_sync auth me s :
  in_sync (browser s) → in_sync (browser (login auth me s).1.1).
Proof.
  intros H. unfold login.
  destruct auth as [[token |] | e]; cbn -[Api.onRejected];
    [| done | by apply onRejected_in_sync].
  destruct (String.eqb token "") eqn:Ee; cbn -[Api.onRejected]; [done |].
  apply String.eqb_neq in Ee.
  destruct me; cbn -[Api.onRejected Api.setToken setItem];
    [by apply signed_in_in_sync |].
  by apply onRejected_in_sync, signed_in_in_sync.
Qed.

Lemma step_in_sync s ev : in_sync (browser s) → in_sync (browser (step s ev)).
Proof.
  destruct ev; simpl.
  - apply login_in_sync.
  - intros _. apply signed_out_in_sync.
  - apply onRejected_in_sync.
Qed.

Lemma run_in_sync storage path me evs : in_sync (browser (run storage path me evs)).
Proof.
  unfold run. generalize (mount_in_sync me storage path).
  generalize (mount me (loaded storage path)).1. intros s Hs. revert s Hs.
  induction evs as [|ev evs IH]; intros s Hs; simpl; [done |].
  by apply IH, step_in_sync.
Qed.

(** X12: from a page load on, through any logins, logouts and failing
    calls, the request interceptor puts on a request the bearer token that
    [localStorage] holds under [token], and leaves the request alone when
    none (or an empty one) is stored. *)
Theorem request_carries_stored_token (storage : gmap string string) (path : string)
    (me : Reply User) (evs : list Event) (config : Config) :
  onRequest (browser (run storage path me evs)) config
  = match Api.localStorage (browser (run storage path me evs)) !! "token" with
    | Some token =>
      if String.eqb token "" then config
      else mkConfig (method config) (url config) (Some ("Bearer " +:+ token))
    | None => config
    end.
Proof.
  pose proof (run_in_sync storage path me evs) as H.
  unfold in_sync in H. unfold onRequest.
  destruct (Api.localStorage _ !! "token") as [token |]; rewrite H; [| done].
  destruct (String.eqb token "") eqn:E; [done |]. by rewrite E.
Qed.

(** X13: [login] resolves to [true] exactly when the login call answers
    with a non-empty [access_token] and the profile call that follows
    succeeds; then the user is the profile received, the token is in the
    client and in [localStorage], and the profile call carried it.  When it
    resolves to [false] the user is the one there was before.  Either way
    [isLoading] ends false. *)
Theorem login_result (auth : Reply (option string)) (me : Reply User) (s : State) :
  ((login auth me s).1.2 = true ↔
   ∃ token userData, auth = Resolves (Some token) ∧ token ≠ "" ∧ me = Resolves userData)
  ∧ (∀ token userData,
       auth = Resolves (Some token) → token ≠ "" → me = Resolves userData →
       user (login auth me s).1.1 = Some userData
       ∧ Api.token (browser (login auth me s).1.1) = Some token
       ∧ Api.localStorage (browser (login auth me s).1.1) !! "token" = Some token
       ∧ (login auth me s).2
         = [onRequest (browser s) loginCall;
            mkConfig "get" "/auth/me" (Some ("Bearer " +:+ token))])
  ∧ ((login auth me s).1.2 = false → user (login auth me s).1.1 = user s)
  ∧ isLoading (login auth me s).1.1 = false.
Proof.
  unfold login. destruct auth as [[token |] | e]; simpl.
  - destruct (String.eqb token "") eqn:Ee; simpl.
    + apply String.eqb_eq in Ee as ->.
      split; [split; [done | by intros (? & ? & [= <-] & ? & _)] |].
      split; [by intros ? ? [= <-] |]. done.
    + pose proof Ee as Hne. apply String.eqb_neq in Hne.
      destruct me as [userData | e]; simpl.
      * split; [split; [by eauto | done] |].
        split; [| done]. intros ? ? [= <-] _ [= <-].
        split; [done |]. split; [done |]. split; [by rewrite lookup_insert_eq |].
        unfold onRequest at 2. simpl. by rewrite Ee.
      * split; [split; [done | by intros (? & ? & _ & _ & ?)] |].
        split; [by intros ? ? _ _ ? |]. done.
  - split; [split; [done | by intros (? & ? & ? & _)] |].
    split; [by intros ? ? ? |]. done.
  - split; [split; [done | by intros (? & ? & ? & _)] |].
    split; [by intros ? ? ? |]. done.
Qed.

(** X14: on a page load the provider asks for the profile only when a
    non-empty token is stored, and sends it as the bearer; if the call
    fails, for whatever reason, the token is gone from the client and from
    [localStorage]; every other stored key is kept; [isLoading] ends
    false. *)
Theorem mount_result (storage : gmap string string) (path : string) (me : Reply User) :
  ((mount me (loaded storage path)).2
   = match storage !! "token" with
     | Some token =>
       if String.eqb token "" then []
       else [mkConfig "get" "/auth/me" (Some ("Bearer " +:+ token))]
     | None => []
     end)
  ∧ (∀ e, me = Fails e → (mount me (loaded storage path)).2 ≠ [] →
       Api.token (browser (mount me (loaded storage path)).1) = None
       ∧ Api.localStorage (browser (mount me (loaded storage path)).1) !! "token" = None
       ∧ user (mount me (loaded storage path)).1 = None)
  ∧ (∀ userData, me = Resolves userData → (mount me (loaded storage path)).2 ≠ [] →
       user (mount me (loaded storage path)).1 = Some userData
       ∧ Api.localStorage (browser (mount me (loaded storage path)).1) = storage)
  ∧ (∀ key, key ≠ "token" →
       Api.localStorage (browser (mount me (loaded storage path)).1) !! key = storage !! key)
  ∧ isLoading (mount me (loaded storage path)).1 = false.
Proof.
  unfold mount. simpl. destruct (storage !! "token") as [token |] eqn:E; [| done].
  destruct (String.eqb token "") eqn:Ee; [done |].
  unfold fetchUserProfile. destruct me as [userData | e]; simpl.
  - unfold onRequest. simpl. rewrite Ee.
    split; [done |]. split; [done |]. split; [by intros ? [= <-] |]. done.
  - unfold onRequest. simpl. rewrite Ee. split; [done |].
    split; [intros ? _ _; by rewrite lookup_delete_eq |].
    split; [done |]. split; [| done].
    intros key Hkey. rewrite lookup_delete_ne by done.
    unfold Api.onRejected. destruct (Api.unauthorized e); simpl; [| done].
    by rewrite lookup_delete_ne.
Qed.

End Session.

(* ===================================================================== *)
(** ** Deposit page: the action dialog *)
(* ===================================================================== *)

Section ActionDialog.
Import DepositsPage.

Lemma positive_truthy x : (0 <? x)%float = true → Js.falsy x = false.
Proof.
  unfold Js.falsy, PrimFloat.is_nan, PrimFloat.is_zero.
  rewrite FloatAxioms.ltb_spec, !FloatAxioms.eqb_spec.
  change (Prim2SF 0) with (S754_zero false). change (Prim2SF zero) with (S754_zero false).
  destruct (Prim2SF x) as [s | s | | s m e]; simpl.
  - discriminate.
  - destruct s; [discriminate | done].
  - discriminate.
  - destruct s; [discriminate |]. intros _.
    unfold SFeqb, SFcompare. by rewrite Z.compare_refl, Pos.compare_cont_refl.
Qed.

Lemma handleAction_sound reply s sent :
  sound (s, sent) → actionDisabled s = false →
  sound ((handleAction reply s).1, sent ++ (handleAction reply s).2).
Proof.
  intros (Hsel & Hc & Ht) Hen. simpl in Hsel, Hc, Ht. unfold handleAction.
  destruct (selectedDeposit s) as [d |] eqn:Hd.
  2: { simpl. rewrite app_nil_r. split; [simpl; intros d; by rewrite Hd | by split]. }
  specialize (Hsel d eq_refl).
  unfold actionDisabled in Hen.
  apply orb_false_iff in Hen as [[Ha Hi]%orb_false_iff Hr].
  set (req := match actionType s with
              | apply => ApplyDepositToInvoice _ _ _
              | refund => RefundDeposit _ _ _
              end).
  assert (Hreq : complete req ∧ target req = Some (id d)).
  { subst req. destruct (actionType s); simpl in *; [done |].
    split; [| done]. split; [done |]. by apply String.eqb_neq. }
  destruct Hreq as [Hcr Htr].
  assert (Hnew : ∀ rest, (∀ r, r ∈ rest → complete r ∧ target r = None) →
                 (∀ r, r ∈ sent ++ req :: rest → complete r)
                 ∧ (∀ r depositId, r ∈ sent ++ req :: rest → target r = Some depositId →
                      ∃ d, id d = depositId ∧ rowActions d = true)).
  { intros rest Hrest. split.
    - intros r [H | [-> | H]%elem_of_cons]%elem_of_app; [by apply Hc | done |].
      by apply Hrest.
    - intros r depositId [H | [-> | H]%elem_of_cons]%elem_of_app Hr'.
      + by eapply Ht.
      + rewrite Htr in Hr'. injection Hr' as <-. by exists d.
      + apply Hrest in H as [_ H]. congruence. }
  destruct reply as [| reloaded]; simpl.
  - split; [simpl; intros d'; rewrite Hd; by intros [= <-] |].
    apply Hnew. by intros r H%elem_of_nil.
  - split; [done |]. apply Hnew.
    intros r [-> | [-> | H%elem_of_nil]%elem_of_cons]%elem_of_cons; done.
Qed.

Lemma step_sound st e : sound st → sound (step st e).
Proof.
  destruct st as [s sent]. intros H. pose proof H as (Hsel & Hc & Ht).
  destruct e as [d action | v | v | v | | reply]; simpl.
  - destruct (rowActions d) eqn:E; [| done].
    split; [| by split]. simpl. by intros ? [= <-].
  - done.
  - done.
  - done.
  - split; [done | by split].
  - destruct (actionDialogOpen s); simpl; [| done].
    destruct (actionDisabled s) eqn:E; simpl; [done |].
    pose proof (handleAction_sound reply s sent H E) as H'.
    by destruct (handleAction reply s).
Qed.

Lemma run_sound es : sound (run es).
Proof.
  unfold run.
  assert (H : sound (initial, [])).
  { split; [done |]. split; [by intros ? ?%elem_of_nil | by intros ? ? ?%elem_of_nil]. }
  revert H. generalize (initial, @nil Request).
  induction es as [|e es IH]; intros st H; simpl; [done |].
  by apply IH, step_sound.
Qed.

(** X15: whatever is done with the rows and the action dialog, every
    apply or refund request the page sends carries an amount that is
    neither zero nor [NaN]; an apply carries an invoice id of that kind, a
    refund a non-empty reason; and the deposit it names was [ACTIVE] with a
    positive available amount when its dialog was opened. *)
Theorem action_requests_are_complete (es : list Event) (r : Request) :
  r ∈ (run es).2 →
  match r with
  | ApplyDepositToInvoice depositId invoice_id amount =>
    Js.falsy amount = false ∧ Js.falsy invoice_id = false
    ∧ ∃ d, id d = depositId ∧ status d = "ACTIVE" ∧ (0 <? available_amount d)%float = true
  | RefundDeposit depositId amount reason =>
    Js.falsy amount = false ∧ reason ≠ ""
    ∧ ∃ d, id d = depositId ∧ status d = "ACTIVE" ∧ (0 <? available_amount d)%float = true
  | GetDeposits | GetCustomers => True
  end.
Proof.
  intros Hr. destruct (run_sound es) as (_ & Hc & Ht).
  assert (Hd : ∀ depositId, target r = Some depositId →
               ∃ d, id d = depositId ∧ status d = "ACTIVE"
                    ∧ (0 <? available_amount d)%float = true).
  { intros depositId H. destruct (Ht r depositId Hr H) as (d & Hid & Hrow).
    exists d. unfold rowActions in Hrow.
    apply andb_true_iff in Hrow as [Hs%String.eqb_eq Hp]. done. }
  specialize (Hc r Hr). destruct r; simpl in *; [| | done | done].
  - destruct Hc. split; [done |]. split; [done |]. by apply Hd.
  - destruct Hc. split; [done |]. split; [done |]. by apply Hd.
Qed.

Lemma action_requests_are_complete_witness :
  Js.falsy 300000 = false ∧ Js.falsy 44 = false
  ∧ ∃ d, id d = 1%Z ∧ status d = "ACTIVE" ∧ (0 <? available_amount d)%float = true.
Proof.
  apply (action_requests_are_complete
           [OpenAction Scenario.anticipo apply; EnterInvoiceId 44; ClickAction Rejected]
           (ApplyDepositToInvoice 1 44 300000)).
  vm_compute. apply list_elem_of_singleton. reflexivity.
Defined.

(** X16: the dialog a row opens starts with its action button disabled.
    For "apply" the amount is preset to the deposit's whole available
    amount, so that typing a usable invoice id enables the button and a
    click then asks to apply all of it; for "refund" a reason alone does
    not enable the button. *)
Theorem action_dialog_opened (d : Deposit) (action : ActionType) (s : State) :
  rowActions d = true →
  actionDisabled (handleOpenActionDialog d action s) = true
  ∧ (∀ invoice_id reply,
       Js.falsy invoice_id = false →
       let s' := (step (handleOpenActionDialog d apply s, []) (EnterInvoiceId invoice_id)).1 in
       actionDisabled s' = false
       ∧ (handleAction reply s').2 !! 0%nat
         = Some (ApplyDepositToInvoice (id d) invoice_id (available_amount d)))
  ∧ (∀ reason,
       actionDisabled
         (step (handleOpenActionDialog d refund s, []) (EnterReason reason)).1 = true).
Proof.
  intros [_ Hp%positive_truthy]%andb_true_iff. split.
  - unfold actionDisabled. destruct action; simpl; [by rewrite orb_true_r | done].
  - split.
    + intros invoice_id reply Hi. simpl. unfold actionDisabled. simpl.
      rewrite Hp, Hi. split; [done |]. unfold handleAction. simpl. by destruct reply.
    + intros reason. done.
Qed.

Lemma action_dialog_opened_witness :
  actionDisabled (handleOpenActionDialog Scenario.anticipo apply initial) = true.
Proof.
  apply (action_dialog_opened Scenario.anticipo apply initial). reflexivity.
Defined.

End ActionDialog.

(* ===================================================================== *)
(** ** Customer and product lists: expiry as time passes, counters, alerts *)
(* ===================================================================== *)

Section Lists.
Import JsDate.
Local Open Scope Z_scope.

Lemma localDay_mono tz t t' : t ≤ t' → localDay tz t ≤ localDay tz t'.
Proof.
  intros H. unfold localDay. apply Z.div_le_mono; [rewrite msPerDay_eq |]; lia.
Qed.

Lemma regime_exclusive tz now expiry :
  Customers.isRegimeExpired tz now expiry = true →
  Customers.isRegimeExpiringSoon tz now expiry = false.
Proof.
  destruct expiry as [| | t]; try done.
  rewrite isRegimeExpired_spec. intros H. apply not_true_is_false.
  rewrite isRegimeExpiringSoon_spec. lia.
Qed.

Lemma filter_nonempty {A : Type} (P : A → Prop) `{∀ x, Decision (P x)} (l : list A) :
  filter P l ≠ [] ↔ ∃ x, x ∈ l ∧ P x.
Proof.
  split.
  - destruct (filter P l) as [|x l'] eqn:E; [done |]. intros _.
    assert (Hin : x ∈ filter P l) by (rewrite E; by left).
    apply list_elem_of_filter in Hin as [HP Hin]. by exists x.
  - intros (x & Hx & HP) E.
    assert (Hin : x ∈ filter P l) by by apply list_elem_of_filter.
    rewrite E in Hin. by apply elem_of_nil in Hin.
Qed.

Lemma filter_disjoint_length {A : Type} (P Q R : A → Prop)
    `{∀ x, Decision (P x)} `{∀ x, Decision (Q x)} `{∀ x, Decision (R x)} (l : list A) :
  (∀ x, P x → R x) → (∀ x, Q x → R x) → (∀ x, P x → Q x → False) →
  (length (filter P l) + length (filter Q l) ≤ length (filter R l))%nat.
Proof.
  intros HP HQ HPQ. induction l as [|x l IH]; [done |].
  rewrite !filter_cons.
  destruct (decide (P x)) as [p | p], (decide (Q x)) as [q | q],
           (decide (R x)) as [r | r]; simpl; try lia.
  - destruct (HPQ x p q).
  - destruct (HPQ x p q).
  - destruct (r (HP x p)).
  - destruct (r (HQ x q)).
Qed.

(** X17: on the customer list a regime is never both expired and about
    to expire: the chip is red exactly for the expired ones and amber
    exactly for those about to expire, and the two counters together never
    exceed the number of customers under the regime. *)
Theorem regime_counters (tz now : Z) (cs : list Customers.Customer) :
  (∀ c, (CustomerList.chipColor tz now c = CustomerList.error
         ↔ Customers.isRegimeExpired tz now (Customers.tourism_regime_expiry c) = true)
        ∧ (CustomerList.chipColor tz now c = CustomerList.warning
           ↔ Customers.isRegimeExpiringSoon tz now (Customers.tourism_regime_expiry c) = true))
  ∧ (CustomerList.expiredCount tz now cs + CustomerList.expiringSoonCount tz now cs
     ≤ length (filter (λ c, Customers.tourism_regime c = true) cs))%nat.
Proof.
  split.
  - intros c. unfold CustomerList.chipColor.
    destruct (Customers.isRegimeExpired _ _ _) eqn:E.
    + rewrite (regime_exclusive _ _ _ E). by split.
    + by destruct (Customers.isRegimeExpiringSoon _ _ _).
  - unfold CustomerList.expiredCount, CustomerList.expiringSoonCount.
    apply filter_disjoint_length.
    + by intros c [? _]%andb_true_iff.
    + by intros c [? _]%andb_true_iff.
    + intros c [_ E]%andb_true_iff [_ E']%andb_true_iff.
      rewrite (regime_exclusive _ _ _ E) in E'. done.
Qed.

(** X18: as the clock advances, what is expired stays expired and what
    is about to expire stays so or becomes expired, on the customer list
    and on the product list alike. *)
Theorem expired_stays_expired (tz now now' : Z) (expiry : field) :
  now ≤ now' →
  (Customers.isRegimeExpired tz now expiry = true →
   Customers.isRegimeExpired tz now' expiry = true)
  ∧ (Customers.isRegimeExpiringSoon tz now expiry = true →
     Customers.isRegimeExpiringSoon tz now' expiry = true
     ∨ Customers.isRegimeExpired tz now' expiry = true)
  ∧ (Products.isExpired now expiry = true → Products.isExpired now' expiry = true)
  ∧ (Products.isExpiringSoon now expiry = true →
     Products.isExpiringSoon now' expiry = true ∨ Products.isExpired now' expiry = true).
Proof.
  intros H. destruct expiry as [| | t]; [done | done |].
  pose proof (localDay_mono tz now now' H) as Hd.
  rewrite !isRegimeExpired_spec, !isRegimeExpiringSoon_spec, !isExpiringSoon_spec.
  simpl. rewrite !Z.ltb_lt, msPerDay_eq. lia.
Qed.

Lemma expired_stays_expired_witness :
  Customers.isRegimeExpired Sample.tz (Sample.noon + 3 * msPerDay) (Parses Sample.last_night)
  = true.
Proof.
  apply (expired_stays_expired Sample.tz Sample.noon (Sample.noon + 3 * msPerDay)
           (Parses Sample.last_night)); [vm_compute; discriminate | reflexivity].
Defined.

(** X19: an expiry under which [handleSubmit] sends a customer of the
    tourism regime is one the customer list does not show as expired at
    that moment. *)
Theorem sent_regime_is_not_expired (tz now : Z) (r : Customers.Replies)
    (s : Customers.State) (expiry : Z) :
  Customers.fd_tourism_regime (Customers.formData s) = true →
  Customers.fd_tourism_regime_expiry (Customers.formData s) = Parses expiry →
  (Customers.handleSubmit tz now r s).2 ≠ [] →
  Customers.isRegimeExpired tz now (Parses expiry) = false.
Proof.
  intros Hr He Hsent. unfold Customers.handleSubmit in Hsent.
  destruct (Customers.validation_error tz now (Customers.formData s)) as [msg |] eqn:E;
    [done |].
  unfold Customers.validation_error in E. rewrite Hr, He in E.
  destruct (expiry <=? setHours0 tz now) eqn:Hle; [done |].
  apply Z.leb_gt in Hle. apply not_true_is_false. rewrite isRegimeExpired_spec.
  rewrite setHours0_localDay in Hle.
  pose proof (localDay_bounds tz expiry). rewrite msPerDay_eq in *. nia.
Qed.

Lemma sent_regime_is_not_expired_witness :
  Customers.isRegimeExpired Sample.tz Sample.noon (Parses Sample.in_three_days) = false.
Proof.
  apply (sent_regime_is_not_expired Sample.tz Sample.noon Sample.replies
           (Customers.setFormData Sample.hotel_form_ok Sample.hotel_dialog));
    [reflexivity | reflexivity | vm_compute; discriminate].
Defined.

(** X20: once the form passes the regime checks, [handleSubmit] sends the
    save first.  If the save is rejected nothing else is sent and the
    dialog, the form and the chosen file stay as they were, with an error
    shown.  If it succeeds the certificate upload follows exactly when a
    file is chosen, the regime is on and the reply holds the customer (it
    goes to the customer being edited, or else to the one just created),
    then the list is reloaded and the dialog is closed with the file
    forgotten, whether or not the upload succeeded. *)
Theorem handleSubmit_outcomes (tz now : Z) (r : Customers.Replies) (s : Customers.State) :
  Customers.validation_error tz now (Customers.formData s) = None →
  match Customers.saved r with
  | None =>
    Customers.handleSubmit tz now r s
    = (Customers.setSubmitting false (Customers.setError "Error al guardar cliente" s),
       [Customers.save_request s])
  | Some customer =>
    (Customers.handleSubmit tz now r s).2
    = Customers.save_request s
      :: match Customers.selectedFile s, Customers.fd_tourism_regime (Customers.formData s),
               customer with
         | Some f, true, Some c =>
           [Customers.UploadTourismPdf
              (match Customers.editingCustomer s with
               | Some e => Customers.id e
               | None => Customers.id c
               end) f]
         | _, _, _ => []
         end
      ++ [Customers.GetCustomers]
    ∧ Customers.dialogOpen (Customers.handleSubmit tz now r s).1 = false
    ∧ Customers.editingCustomer (Customers.handleSubmit tz now r s).1 = None
    ∧ Customers.selectedFile (Customers.handleSubmit tz now r s).1 = None
    ∧ Customers.submitting (Customers.handleSubmit tz now r s).1 = false
    ∧ Customers.customers (Customers.handleSubmit tz now r s).1
      = default (Customers.customers s) (Customers.reloaded r)
  end.
Proof.
  intros Hv. unfold Customers.handleSubmit. rewrite Hv.
  destruct (Customers.saved r) as [customer |]; [| done].
  unfold Customers.upload, Customers.loadCustomers.
  destruct (Customers.selectedFile s) as [f |],
           (Customers.fd_tourism_regime (Customers.formData s)),
           customer as [c |], (Customers.uploaded r), (Customers.reloaded r); done.
Qed.

Lemma handleSubmit_outcomes_witness :
  (Customers.handleSubmit Sample.tz Sample.noon Sample.replies
     (Customers.handleFileSelect (Some Sample.certificate)
        (Customers.setFormData Sample.hotel_form_ok Sample.hotel_dialog))).2
  = [Customers.CreateCustomer Sample.hotel_form_ok;
     Customers.UploadTourismPdf 5 Sample.certificate;
     Customers.GetCustomers].
Proof.
  apply (handleSubmit_outcomes Sample.tz Sample.noon Sample.replies
           (Customers.handleFileSelect (Some Sample.certificate)
              (Customers.setFormData Sample.hotel_form_ok Sample.hotel_dialog))).
  reflexivity.
Defined.

(** X21: on the product page the alert box is shown exactly when one of
    its three lists has an entry, every product that calls for attention
    is in one of them, and no product is listed both as expired and as
    expiring soon. *)
Theorem product_alert_lists (now : Z) (ps : list ProductList.Product) :
  (ProductList.alertShown now ps = true
   ↔ ProductList.lowStockItems ps ≠ [] ∨ ProductList.expiredItems now ps ≠ []
     ∨ ProductList.expiringItems now ps ≠ [])
  ∧ (∀ p, p ∈ ps →
       (ProductList.isLowStock p
        || Products.isExpiringSoon now (ProductList.expiry_date p)
        || Products.isExpired now (ProductList.expiry_date p) = true
        ↔ p ∈ ProductList.lowStockItems ps ∨ p ∈ ProductList.expiredItems now ps
          ∨ p ∈ ProductList.expiringItems now ps))
  ∧ (∀ p, p ∈ ProductList.expiredItems now ps → p ∉ ProductList.expiringItems now ps).
Proof.
  assert (Hmem : ∀ p, p ∈ ps →
            (ProductList.isLowStock p
             || Products.isExpiringSoon now (ProductList.expiry_date p)
             || Products.isExpired now (ProductList.expiry_date p) = true
             ↔ p ∈ ProductList.lowStockItems ps ∨ p ∈ ProductList.expiredItems now ps
               ∨ p ∈ ProductList.expiringItems now ps)).
  { intros p Hp.
    unfold ProductList.lowStockItems, ProductList.expiredItems, ProductList.expiringItems.
    rewrite !list_elem_of_filter.
    destruct (ProductList.isLowStock p), (Products.isExpiringSoon now _),
             (Products.isExpired now _); simpl; intuition congruence. }
  split; [| split; [exact Hmem |]].
  - unfold ProductList.alertShown. rewrite Nat.ltb_lt.
    unfold ProductList.lowStockItems, ProductList.expiredItems, ProductList.expiringItems.
    rewrite !filter_nonempty. split.
    + intros Hl. destruct (filter _ ps) as [|p l] eqn:E; [simpl in Hl; lia |].
      assert (Hin : p ∈ filter
                (λ p, ProductList.isLowStock p
                      || Products.isExpiringSoon now (ProductList.expiry_date p)
                      || Products.isExpired now (ProductList.expiry_date p) = true) ps)
        by (rewrite E; by left).
      apply list_elem_of_filter in Hin as [Ha Hin].
      apply (Hmem p Hin) in Ha.
      unfold ProductList.lowStockItems, ProductList.expiredItems,
             ProductList.expiringItems in Ha.
      rewrite !list_elem_of_filter in Ha.
      destruct Ha as [[? ?] | [[? ?] | [? ?]]]; eauto.
    + intros Hex.
      assert (∃ p, p ∈ ps ∧ ProductList.isLowStock p
                             || Products.isExpiringSoon now (ProductList.expiry_date p)
                             || Products.isExpired now (ProductList.expiry_date p) = true)
        as (p & Hin & Ha).
      { destruct Hex as [(p & Hin & H) | [(p & Hin & H) | (p & Hin & H)]];
          exists p; (split; [done |]).
        - by rewrite H.
        - rewrite H. by rewrite !orb_true_r.
        - apply andb_true_iff in H as [-> _]. by rewrite orb_true_r. }
      assert (Hf : p ∈ filter
                (λ p, ProductList.isLowStock p
                      || Products.isExpiringSoon now (ProductList.expiry_date p)
                      || Products.isExpired now (ProductList.expiry_date p) = true) ps)
        by by apply list_elem_of_filter.
      destruct (filter _ ps); [by apply elem_of_nil in Hf | simpl; lia].
  - intros p. unfold ProductList.expiredItems, ProductList.expiringItems.
    rewrite !list_elem_of_filter. intros [E _] [E' _]. rewrite E in E'.
    by rewrite andb_false_r in E'.
Qed.

End Lists.
